(** * Distributed Game of Life: broker partitioning, worker rule step and
      the broker's control plane.

    A shallow embedding of the Go sources
      - worker:  [Field.cultivate], [Region.update], [WorkerService.Process]
      - broker:  [World.region], [Region.update] (the RPC stub),
                 [World.update], [World.alive], and the remote procedures
                 [Report], [Process], [Save], [Quit], [Shutdown], [Pause]
    followed by the properties of the specification, each settled against
    these definitions.  The remote procedures of the broker are given
    twice: as whole effects on the session, with the run loop of [Process]
    iteration by iteration ([BrokerService], [Process]), and statement by
    statement ([Threads]), where the calls interleave as the goroutines of
    the RPC server do.

    Conventions.  A Go [int] is a 64-bit two's complement integer, modelled
    as a [Z] with the wrap-around of every [+], [-] and [*] written out
    ([GoInt.wrap]).  A slice is a [list]; reading or writing outside its
    bounds panics, and a panic is the result [None].  Loops over an index
    are [for_range]. *)

From Stdlib Require Import ZArith Lia String.
From stdpp Require Import base tactics option list list_numbers.

Local Open Scope Z_scope.

(** ** Go's [int] *)

Module GoInt.

Definition wrap (z : Z) : Z := (z + 2 ^ 63) `mod` 2 ^ 64 - 2 ^ 63.

Definition add (a b : Z) : Z := wrap (a + b).
Definition sub (a b : Z) : Z := wrap (a - b).
Definition mul (a b : Z) : Z := wrap (a * b).

(** [a / b] and [a % b] truncate towards zero and panic when [b] is zero. *)
Definition quot (a b : Z) : option Z :=
  if decide (b = 0) then None else Some (wrap (a ÷ b)).
Definition rem (a b : Z) : option Z :=
  if decide (b = 0) then None else Some (Z.rem a b).

(** Sizes that the arithmetic of this program never overflows on: twice
    such a value still fits an [int].  Every length is one: an element of
    a slice of cells, of rows or of addresses takes 16 bytes or more, so a
    slice holds fewer than [2 ^ 60] of them. *)
Definition small (z : Z) : Prop := 0 <= z < 2 ^ 62.

End GoInt.

(** ** Slices and index loops *)

(** [s[i]] *)
Definition index {A} (s : list A) (i : Z) : option A :=
  if decide (0 <= i) then s !! Z.to_nat i else None.

(** [s[i] = v] *)
Definition store {A} (s : list A) (i : Z) (v : A) : option (list A) :=
  if decide (0 <= i < Z.of_nat (length s))
  then Some (<[Z.to_nat i := v]> s) else None.

(** [make([]A, n)]: [n] zero values; a negative length panics. *)
Definition make {A} (zero : A) (n : Z) : option (list A) :=
  if decide (0 <= n) then Some (replicate (Z.to_nat n) zero) else None.

(** [n] rounds of a loop body over the indices [i], [i+1], ...; the body
    may panic. *)
Fixpoint for_range {S} (n : nat) (i : Z) (body : Z → S → option S) (s : S)
  : option S :=
  match n with
  | O => Some s
  | S n' => s' ← body i s; for_range n' (i + 1) body s'
  end.

(** [for i := lo; i < hi; i++ { body }].  The index stays below [hi], so
    [i++] never wraps. *)
Definition for_lt {S} (lo hi : Z) (body : Z → S → option S) (s : S)
  : option S :=
  for_range (Z.to_nat (hi - lo)) lo body s.

(** [for i := lo; i <= hi; i++ { body }], for [hi] below the largest
    [int] (every use here has [hi + 2] already computed without wrap, or
    [hi = 1]). *)
Definition for_le {S} (lo hi : Z) (body : Z → S → option S) (s : S)
  : option S :=
  for_range (Z.to_nat (hi + 1 - lo)) lo body s.

(** A slice filled from position [p] on by [j] rounds of a loop that
    stores [g 0], [g 1], ... at [p], [p + 1], ... *)
Definition filled {A} (p : nat) (g : nat → A) (j : nat) (data : list A)
  : list A :=
  take p data ++ (g <$> seq 0 j) ++ drop (p + j) data.

(** ** The grid model *)

Module Cell.
Record t := mk { X : Z; Y : Z; Alive : bool }.
Definition zero : t := mk 0 0 false.
Definition setAlive (c : t) (a : bool) : t := mk (X c) (Y c) a.
End Cell.

Module Field.
Record t := mk { Data : list (list Cell.t); Height : Z; Width : Z }.
Definition setData (f : t) (d : list (list Cell.t)) : t :=
  mk d (Height f) (Width f).
End Field.

Module Region.
Record t := mk
  { Field : list (list Cell.t); Start : Z; End : Z; Height : Z; Width : Z }.
Definition zero : t := mk [] 0 0 0 0.
Definition setField (r : t) (d : list (list Cell.t)) : t :=
  mk d (Start r) (End r) (Height r) (Width r).
End Region.

Module World.
Record t := mk { Field : Field.t; Height : Z; Width : Z }.
Definition zero : t := mk (Field.mk [] 0 0) 0 0.
Definition setData (w : t) (d : list (list Cell.t)) : t :=
  mk (Field.setData (Field w) d) (Height w) (Width w).
End World.

Definition DefaultHaloOffset : Z := 1.

(** ** The worker *)

Module Worker.

(** [field.cultivate(height, width)]: [height] rows, each made of [width]
    zero cells. *)
Definition Field_cultivate (field : Field.t) (height width : Z)
  : option Field.t :=
  land ← make ([] : list Cell.t) height;
  land ← for_lt 0 (Z.of_nat (length land))
           (λ i land, row ← make Cell.zero width; store land i row) land;
  Some (Field.setData field land).

(** The two inner loops of [Region.update]: the number of alive cells
    among the eight positions around [(x, y)]; [i] is the column offset,
    [j] the row offset, and only the column is wrapped. *)
Definition aliveNeighbours (region : Region.t) (x y : Z) : option Z :=
  for_le (-1) 1 (λ i n,
    for_le (-1) 1 (λ j n,
      let wx := GoInt.add x i in
      let wy := GoInt.add y j in
      let wx := GoInt.add wx (Region.Width region) in
      wx ← GoInt.rem wx (Region.Width region);
      if bool_decide (j ≠ 0) || bool_decide (i ≠ 0) then
        row ← index (Region.Field region) wy;
        cell ← index row wx;
        Some (if Cell.Alive cell then GoInt.add n 1 else n)
      else Some n) n) 0.

(** The body of the [x] loop up to the assignment: the next state of the
    cell at [(x, y)]. *)
Definition nextCell (region : Region.t) (x y : Z) : option Cell.t :=
  row ← index (Region.Field region) y;
  currentCell ← index row x;
  let nextCell := currentCell in
  aliveNeighbours ← aliveNeighbours region x y;
  let nextCell :=
    if bool_decide (aliveNeighbours < 2) || bool_decide (aliveNeighbours > 3)
    then Cell.setAlive nextCell false else nextCell in
  let nextCell :=
    if bool_decide (aliveNeighbours = 3)
    then Cell.setAlive nextCell true else nextCell in
  Some nextCell.

(** [data[r][x] = cell] *)
Definition store2 (data : list (list Cell.t)) (r x : Z) (cell : Cell.t)
  : option (list (list Cell.t)) :=
  row ← index data r;
  row ← store row x cell;
  store data r row.

(** [region.update()] *)
Definition Region_update (region : Region.t) : option Region.t :=
  let field := Field.mk [] (Region.Height region) (Region.Width region) in
  field ← Field_cultivate field (Region.Height region) (Region.Width region);
  data ← for_lt DefaultHaloOffset
           (GoInt.add (Region.Height region) DefaultHaloOffset)
           (λ y data,
              for_lt 0 (Region.Width region)
                (λ x data,
                   cell ← nextCell region x y;
                   store2 data (GoInt.sub y DefaultHaloOffset) x cell)
                data)
           (Field.Data field);
  Some (Region.setField region data).

(** [WorkerService.Process]: the response carries the updated region. *)
Definition WorkerService_Process (req : Region.t) : option Region.t :=
  Region_update req.

End Worker.

(** ** The broker: partitioning and one generation *)

Module util.
Record Cell := mkCell { X : Z; Y : Z }.
End util.

Module Broker.

(** [world.region(w, numWorkers)]: the band of worker [w] with its two
    halo rows. *)
Definition World_region (world : World.t) (w numWorkers : Z)
  : option Region.t :=
  let rows := Field.Data (World.Field world) in
  regionHeight ← GoInt.quot (World.Height world) numWorkers;
  let start := GoInt.mul w regionHeight in
  let end_ :=
    if decide (w = GoInt.sub numWorkers 1) then World.Height world
    else GoInt.mul (GoInt.add w 1) regionHeight in
  let regionHeight := GoInt.sub end_ start in
  downRowPtr ← GoInt.rem end_ (World.Height world);
  upRowPtr ←
    GoInt.rem (GoInt.add (GoInt.sub start 1) (World.Height world))
      (World.Height world);
  data ← make ([] : list Cell.t) (GoInt.add regionHeight 2);
  up ← index rows upRowPtr;
  data ← store data 0 up;
  data ← for_le 1 regionHeight
           (λ row data,
              r ← index rows (GoInt.sub (GoInt.add start row) 1);
              store data row r)
           data;
  down ← index rows downRowPtr;
  data ← store data (GoInt.add regionHeight 1) down;
  Some (Region.mk data start end_ regionHeight (World.Width world)).

(** [region.update(ipAddress, regionCh)]: the remote call of the worker's
    [Process] and the rows put on the channel.  The error of [client.Call]
    is dropped: when the worker panics the response keeps its zero value.
    The network itself is taken to deliver. *)
Definition Region_update (region : Region.t) (ipAddress : string)
  : list (list Cell.t) :=
  let response := default Region.zero (Worker.WorkerService_Process region) in
  Region.Field response.

(** The first loop of [World.update]: one region per worker index. *)
Definition regions (world : World.t) (numWorkers : Z)
  : option (list Region.t) :=
  mapM (λ workerID, World_region world workerID numWorkers)
    (seqZ 0 numWorkers).

(** [world.update(workerAddrs)].  The goroutines share nothing but their
    own channel, and the channels are drained in index order, so the
    fan-out is a map and the fan-in a left fold of [append]. *)
Definition World_update (world : World.t) (workerAddrs : list string)
  : option World.t :=
  let numWorkers := Z.of_nat (length workerAddrs) in
  regions ← regions world numWorkers;
  let regionChannel :=
    zip_with Region_update regions workerAddrs in
  let newFieldData :=
    foldl (λ newFieldData region, newFieldData ++ region) [] regionChannel in
  Some (World.setData world newFieldData).

(** [for x, cell := range row] of [aliveCellsInRow], from column [x] on. *)
Fixpoint aliveCellsInRow_from (x : Z) (row : list Cell.t) (y : Z)
  (alive : list util.Cell) : list util.Cell :=
  match row with
  | [] => alive
  | cell :: row' =>
      aliveCellsInRow_from (x + 1) row' y
        (if Cell.Alive cell then alive ++ [util.mkCell x y] else alive)
  end.

Definition aliveCellsInRow (row : list Cell.t) (y : Z) : list util.Cell :=
  aliveCellsInRow_from 0 row y [].

(** [for y, row := range world.Field.Data] of [World.alive]. *)
Fixpoint World_alive_from (y : Z) (rows : list (list Cell.t))
  (alive : list util.Cell) : list util.Cell :=
  match rows with
  | [] => alive
  | row :: rows' =>
      World_alive_from (y + 1) rows' (alive ++ aliveCellsInRow row y)
  end.

Definition World_alive (world : World.t) : list util.Cell :=
  World_alive_from 0 (Field.Data (World.Field world)) [].

End Broker.

(** ** The broker: session state and remote procedures *)

Module BrokerProcessRequest.
Record t := mk { Turns : Z; World : World.t }.
End BrokerProcessRequest.

Module BrokerProcessResponse.
Record t := mk { World : World.t; Turns : Z }.
Definition zero : t := mk World.zero 0.
End BrokerProcessResponse.

Module BrokerReportResponse.
Record t := mk { Turns : Z; CellsCount : Z }.
End BrokerReportResponse.

Module BrokerSaveResponse.
Record t := mk { Turns : Z; World : World.t }.
End BrokerSaveResponse.

Module BrokerQuitResponse.
Record t := mk { Turns : Z }.
End BrokerQuitResponse.

Module BrokerShutdownResponse.
Record t := mk { Turns : Z }.
End BrokerShutdownResponse.

Module BrokerPauseResponse.
Record t := mk { Turns : Z; IsPaused : bool }.
End BrokerPauseResponse.

(** The three channels are unbuffered: a send blocks until the run loop
    receives.  A channel is modelled by the values its blocked senders
    offer, oldest first. *)
Module BrokerService.
Record t := mk
  { Turns : Z;
    CellsCount : Z;
    World : World.t;
    quit : list bool;
    shutdown : list bool;
    pause : list bool;
    isPaused : bool;
    addresses : list string }.

(** The service object of [main]. *)
Definition init (addresses : list string) : t :=
  mk 0 0 World.zero [] [] [] false addresses.

Definition Report (b : t) : BrokerReportResponse.t * t :=
  (BrokerReportResponse.mk (Turns b) (CellsCount b), b).

Definition Save (b : t) : BrokerSaveResponse.t * t :=
  (BrokerSaveResponse.mk (Turns b) (World b), b).

(** The response and the fields are written before the send on [quit];
    the call itself returns once the run loop has received. *)
Definition Quit (b : t) : BrokerQuitResponse.t * t :=
  (BrokerQuitResponse.mk (Turns b),
   mk 0 0 World.zero (quit b ++ [true]) (shutdown b) (pause b) (isPaused b)
      (addresses b)).

(** The calls to the workers' [Shutdown] leave the broker's state alone. *)
Definition Shutdown (b : t) : BrokerShutdownResponse.t * t :=
  (BrokerShutdownResponse.mk (Turns b),
   mk (Turns b) (CellsCount b) (World b) (quit b) (shutdown b ++ [true])
      (pause b) (isPaused b) (addresses b)).

Definition Pause (b : t) : BrokerPauseResponse.t * t :=
  let p := negb (isPaused b) in
  (BrokerPauseResponse.mk (Turns b) p,
   mk (Turns b) (CellsCount b) (World b) (quit b) (shutdown b)
      (pause b ++ [p]) p (addresses b)).

End BrokerService.

(** ** The run loop of [BrokerService.Process] *)

Module Process.

(** Where the run loop stands: at the head of the [for] loop, or inside
    the pause case at the blocking [<-b.pause]. *)
Inductive Point := AtLoop | AtResume.

(** The locals of one call of [Process]. *)
Record Frame := mkFrame
  { turns : Z;
    world : World.t;
    turn : Z;
    res : BrokerProcessResponse.t;
    point : Point }.

Inductive Config :=
  | Running (f : Frame) (b : BrokerService.t)
  | Returned (res : BrokerProcessResponse.t) (b : BrokerService.t).

(** The response starts as the zero value allocated by the RPC server. *)
Definition enter (req : BrokerProcessRequest.t) (b : BrokerService.t)
  : Config :=
  Running
    (mkFrame (BrokerProcessRequest.Turns req) (BrokerProcessRequest.World req)
       0 BrokerProcessResponse.zero AtLoop)
    b.

(** Go's [select] takes [default] only when no communication can proceed;
    among several that can, it picks one at random.  [Ready] is that
    pick when both channels have a sender waiting. *)
Inductive Ready := PauseReady | QuitReady.

Inductive Branch :=
  | CasePause (isPaused : bool) (rest : list bool)
  | CaseQuit (rest : list bool)
  | CaseDefault.

Definition select (pick : Ready) (b : BrokerService.t) : Branch :=
  match BrokerService.pause b, BrokerService.quit b with
  | [], [] => CaseDefault
  | v :: ps, [] => CasePause v ps
  | [], _ :: qs => CaseQuit qs
  | v :: ps, _ :: qs =>
      match pick with
      | PauseReady => CasePause v ps
      | QuitReady => CaseQuit qs
      end
  end.

(** What a step of the run loop did. *)
Inductive Action :=
  | DidPause | DidResume | DidBlock | DidQuit | DidCompute | DidIdle
  | DidFinish.

Definition setPause (b : BrokerService.t) (isPaused : bool) (ps : list bool)
  : BrokerService.t :=
  BrokerService.mk (BrokerService.Turns b) (BrokerService.CellsCount b)
    (BrokerService.World b) (BrokerService.quit b) (BrokerService.shutdown b)
    ps isPaused (BrokerService.addresses b).

Definition setQuit (b : BrokerService.t) (qs : list bool) : BrokerService.t :=
  BrokerService.mk (BrokerService.Turns b) (BrokerService.CellsCount b)
    (BrokerService.World b) qs (BrokerService.shutdown b)
    (BrokerService.pause b) (BrokerService.isPaused b)
    (BrokerService.addresses b).

(** [b.Turns++; b.CellsCount = len(world.alive()); b.World = world] *)
Definition publish (b : BrokerService.t) (world : World.t)
  : BrokerService.t :=
  BrokerService.mk (GoInt.add (BrokerService.Turns b) 1)
    (Z.of_nat (length (Broker.World_alive world))) world
    (BrokerService.quit b) (BrokerService.shutdown b) (BrokerService.pause b)
    (BrokerService.isPaused b) (BrokerService.addresses b).

(** One step of the run loop: the loop test and one [select], or the
    receive that ends a pause.  [None] is a panic of the generation. *)
Definition step (pick : Ready) (f : Frame) (b : BrokerService.t)
  : option (Action * Config) :=
  match point f with
  | AtResume =>
      match BrokerService.pause b with
      | [] => Some (DidBlock, Running f b)
      | _ :: ps =>
          Some (DidResume,
                Running (mkFrame (turns f) (world f) (turn f) (res f) AtLoop)
                  (setPause b (BrokerService.isPaused b) ps))
      end
  | AtLoop =>
      if decide (turn f < turns f) then
        match select pick b with
        | CasePause isPaused ps =>
            Some (DidPause,
                  Running
                    (mkFrame (turns f) (world f) (turn f) (res f)
                       (if isPaused then AtResume else AtLoop))
                    (setPause b isPaused ps))
        | CaseQuit qs =>
            Some (DidQuit, Returned (res f) (setQuit b qs))
        | CaseDefault =>
            if negb (BrokerService.isPaused b) then
              world ← Broker.World_update (world f) (BrokerService.addresses b);
              Some (DidCompute,
                    Running
                      (mkFrame (turns f) world (GoInt.add (turn f) 1) (res f)
                         AtLoop)
                      (publish b world))
            else Some (DidIdle, Running f b)
        end
      else
        Some (DidFinish,
              Returned
                (BrokerProcessResponse.mk (world f) (BrokerService.Turns b))
                b)
  end.

(** The step relation of the run loop: a step under some pick. *)
Inductive steps_to (f : Frame) (b : BrokerService.t)
  : Action → Config → Prop :=
  | steps_to_pick pick a c : step pick f b = Some (a, c) → steps_to f b a c.

(** The other remote procedures, as they arrive while the loop runs. *)
Inductive Call := CallReport | CallSave | CallPause | CallQuit | CallShutdown.

Definition serve (call : Call) (b : BrokerService.t) : BrokerService.t :=
  match call with
  | CallReport => snd (BrokerService.Report b)
  | CallSave => snd (BrokerService.Save b)
  | CallPause => snd (BrokerService.Pause b)
  | CallQuit => snd (BrokerService.Quit b)
  | CallShutdown => snd (BrokerService.Shutdown b)
  end.

(** A run of [Process] under a schedule: before each step of the loop the
    calls that arrived are served, and the step uses the given pick.  The
    run stops at the return of [Process] or at the end of the schedule. *)
Fixpoint run (schedule : list (list Call * Ready)) (c : Config)
  : option Config :=
  match schedule, c with
  | [], _ => Some c
  | _, Returned _ _ => Some c
  | (calls, pick) :: schedule', Running f b =>
      ac ← step pick f (foldl (λ b call, serve call b) b calls);
      run schedule' (snd ac)
  end.

(** A schedule without calls, long enough for [n] steps. *)
Definition quiet (n : nat) : list (list Call * Ready) :=
  replicate n ([], PauseReady).

End Process.

(** ** The broker's calls, statement by statement *)

(** The RPC server runs every call in a goroutine of its own, and the
    calls share the fields of the service without a lock.  Here each call
    is a thread that executes one statement of broker.go per step; the
    statements of different threads interleave in any order.  A point is
    named after the line of the statement the thread executes next.  The
    channels are unbuffered: a sender waits in [Sending] until the run
    loop receives its value. *)
Module Threads.

Inductive Call :=
  | CallProcess (req : BrokerProcessRequest.t)
  | CallReport
  | CallSave
  | CallQuit
  | CallPause.

Inductive Point :=
  | Report217 | Report218
  | Process228 | Process229 | Process231 (isPaused : bool) | Process232
  | Process234 | Process240 | Process242 | Process244 | Process245
  | Process246 | Process248 | Process253 | Process254
  | Save260 | Save261
  | Quit266 | Quit268 | Quit269 | Quit270 | Quit272
  | Pause298 | Pause299 | Pause300 | Pause301
  | Sending (after : Point)
  | Returned.

(** The locals of a call: those of [Process], and the response. *)
Inductive Frame :=
  | InProcess (turns : Z) (world : World.t) (turn : Z)
      (res : BrokerProcessResponse.t)
  | InReport (res : BrokerReportResponse.t)
  | InSave (res : BrokerSaveResponse.t)
  | InQuit (res : BrokerQuitResponse.t)
  | InPause (res : BrokerPauseResponse.t).

Record Thread := mkThread { point : Point; frame : Frame }.

(** The fields of the service.  A channel holds the values its waiting
    senders offer, oldest first, each with the thread that sends it. *)
Record Shared := mkShared
  { Turns : Z;
    CellsCount : Z;
    World : World.t;
    quit : list (nat * bool);
    pause : list (nat * bool);
    isPaused : bool;
    addresses : list string }.

Record System := mkSystem { shared : Shared; threads : list Thread }.

(** The service object of [main], with no call in progress. *)
Definition start (addresses : list string) : System :=
  mkSystem (mkShared 0 0 World.zero [] [] false addresses) [].

(** A call arrives: its thread stands before its first statement, with a
    zero response.  The three local assignments that open [Process] are
    made on arrival. *)
Definition arrive (call : Call) (sys : System) : System :=
  let thread :=
    match call with
    | CallProcess req =>
        mkThread Process228
          (InProcess (BrokerProcessRequest.Turns req)
             (BrokerProcessRequest.World req) 0 BrokerProcessResponse.zero)
    | CallReport => mkThread Report217 (InReport (BrokerReportResponse.mk 0 0))
    | CallSave => mkThread Save260 (InSave (BrokerSaveResponse.mk 0 World.zero))
    | CallQuit => mkThread Quit266 (InQuit (BrokerQuitResponse.mk 0))
    | CallPause => mkThread Pause298 (InPause (BrokerPauseResponse.mk 0 false))
    end in
  mkSystem (shared sys) (threads sys ++ [thread]).

Definition setTurns (b : Shared) (z : Z) : Shared :=
  mkShared z (CellsCount b) (World b) (quit b) (pause b) (isPaused b)
    (addresses b).

Definition setCellsCount (b : Shared) (z : Z) : Shared :=
  mkShared (Turns b) z (World b) (quit b) (pause b) (isPaused b)
    (addresses b).

Definition setWorld (b : Shared) (world : World.t) : Shared :=
  mkShared (Turns b) (CellsCount b) world (quit b) (pause b) (isPaused b)
    (addresses b).

Definition setQuit (b : Shared) (q : list (nat * bool)) : Shared :=
  mkShared (Turns b) (CellsCount b) (World b) q (pause b) (isPaused b)
    (addresses b).

Definition setPause (b : Shared) (p : list (nat * bool)) : Shared :=
  mkShared (Turns b) (CellsCount b) (World b) (quit b) p (isPaused b)
    (addresses b).

Definition setIsPaused (b : Shared) (v : bool) : Shared :=
  mkShared (Turns b) (CellsCount b) (World b) (quit b) (pause b) v
    (addresses b).

(** The sender whose value was received goes on after its send. *)
Definition release (sender : nat) (ts : list Thread) : list Thread :=
  match ts !! sender with
  | Some (mkThread (Sending after) fr) => <[sender := mkThread after fr]> ts
  | _ => ts
  end.

(** One statement of thread [tid].  [None]: there is no such thread, it
    has returned, it waits (in a send, or at line 234 with no sender), or
    the statement panics.  [pick] is the choice of [select] when a pause
    and a quit are both ready. *)
Definition step (pick : Process.Ready) (tid : nat) (sys : System)
  : option System :=
  t ← threads sys !! tid;
  let b := shared sys in
  let go (b' : Shared) (p : Point) (fr : Frame) : option System :=
    Some (mkSystem b' (<[tid := mkThread p fr]> (threads sys))) in
  let receive (b' : Shared) (sender : nat) (p : Point) (fr : Frame)
    : option System :=
    Some (mkSystem b'
            (release sender (<[tid := mkThread p fr]> (threads sys)))) in
  match point t, frame t with
  (* Report *)
  | Report217, InReport res =>
      go b Report218
        (InReport
           (BrokerReportResponse.mk (Turns b)
              (BrokerReportResponse.CellsCount res)))
  | Report218, InReport res =>
      go b Returned
        (InReport
           (BrokerReportResponse.mk (BrokerReportResponse.Turns res)
              (CellsCount b)))
  (* Process *)
  | Process228, InProcess turns world turn res =>
      go b (if decide (turn < turns) then Process229 else Process253)
        (frame t)
  | Process229, InProcess turns world turn res =>
      match pause b, quit b with
      | [], [] => go b Process240 (frame t)
      | (sender, v) :: ps, [] =>
          receive (setPause b ps) sender (Process231 v) (frame t)
      | [], (sender, _) :: qs =>
          receive (setQuit b qs) sender Returned (frame t)
      | (sender, v) :: ps, (sender', _) :: qs =>
          match pick with
          | Process.PauseReady =>
              receive (setPause b ps) sender (Process231 v) (frame t)
          | Process.QuitReady =>
              receive (setQuit b qs) sender' Returned (frame t)
          end
      end
  | Process231 v, InProcess turns world turn res =>
      go (setIsPaused b v) Process232 (frame t)
  | Process232, InProcess turns world turn res =>
      go b (if isPaused b then Process234 else Process228) (frame t)
  | Process234, InProcess turns world turn res =>
      match pause b with
      | [] => None
      | (sender, _) :: ps =>
          receive (setPause b ps) sender Process228 (frame t)
      end
  | Process240, InProcess turns world turn res =>
      go b (if negb (isPaused b) then Process242 else Process228) (frame t)
  | Process242, InProcess turns world turn res =>
      world' ← Broker.World_update world (addresses b);
      go b Process244 (InProcess turns world' turn res)
  | Process244, InProcess turns world turn res =>
      go (setTurns b (GoInt.add (Turns b) 1)) Process245 (frame t)
  | Process245, InProcess turns world turn res =>
      go (setCellsCount b (Z.of_nat (length (Broker.World_alive world))))
        Process246 (frame t)
  | Process246, InProcess turns world turn res =>
      go (setWorld b world) Process248 (frame t)
  | Process248, InProcess turns world turn res =>
      go b Process228 (InProcess turns world (GoInt.add turn 1) res)
  | Process253, InProcess turns world turn res =>
      go b Process254
        (InProcess turns world turn
           (BrokerProcessResponse.mk world (BrokerProcessResponse.Turns res)))
  | Process254, InProcess turns world turn res =>
      go b Returned
        (InProcess turns world turn
           (BrokerProcessResponse.mk (BrokerProcessResponse.World res)
              (Turns b)))
  (* Save *)
  | Save260, InSave res =>
      go b Save261
        (InSave (BrokerSaveResponse.mk (Turns b) (BrokerSaveResponse.World res)))
  | Save261, InSave res =>
      go b Returned
        (InSave (BrokerSaveResponse.mk (BrokerSaveResponse.Turns res) (World b)))
  (* Quit *)
  | Quit266, InQuit res =>
      go b Quit268 (InQuit (BrokerQuitResponse.mk (Turns b)))
  | Quit268, InQuit res => go (setTurns b 0) Quit269 (frame t)
  | Quit269, InQuit res => go (setCellsCount b 0) Quit270 (frame t)
  | Quit270, InQuit res => go (setWorld b World.zero) Quit272 (frame t)
  | Quit272, InQuit res =>
      go (setQuit b (quit b ++ [(tid, true)])) (Sending Returned) (frame t)
  (* Pause *)
  | Pause298, InPause res =>
      go (setIsPaused b (negb (isPaused b))) Pause299 (frame t)
  | Pause299, InPause res =>
      go (setPause b (pause b ++ [(tid, isPaused b)])) (Sending Pause300)
        (frame t)
  | Pause300, InPause res =>
      go b Pause301
        (InPause
           (BrokerPauseResponse.mk (BrokerPauseResponse.Turns res)
              (isPaused b)))
  | Pause301, InPause res =>
      go b Returned
        (InPause
           (BrokerPauseResponse.mk (Turns b)
              (BrokerPauseResponse.IsPaused res)))
  | _, _ => None
  end.

(** What happens next: a call arrives, or a thread executes a
    statement. *)
Inductive Action :=
  | Arrive (call : Call)
  | Step (tid : nat) (pick : Process.Ready).

Definition act (a : Action) (sys : System) : option System :=
  match a with
  | Arrive call => Some (arrive call sys)
  | Step tid pick => step pick tid sys
  end.

(** An execution: the actions of a schedule, one after the other. *)
Fixpoint run (schedule : list Action) (sys : System) : option System :=
  match schedule with
  | [] => Some sys
  | a :: schedule' => sys' ← act a sys; run schedule' sys'
  end.

(** [n] statements of thread [tid] in a row. *)
Definition steps (n : nat) (tid : nat) : list Action :=
  replicate n (Step tid Process.PauseReady).

End Threads.

(** ** Well-formed inputs *)

(** Every row of [rows] has [width] cells. *)
Definition rows_of_width (width : Z) (rows : list (list Cell.t)) : Prop :=
  Forall (λ row, Z.of_nat (length row) = width) rows.

(** A region as the broker sends it: [Height + 2] rows of [Width] cells. *)
Definition wf_Region (region : Region.t) : Prop :=
  GoInt.small (Region.Height region) ∧
  GoInt.small (Region.Width region) ∧
  Z.of_nat (length (Region.Field region)) = Region.Height region + 2 ∧
  rows_of_width (Region.Width region) (Region.Field region).

(** A world as the client sends it: a non-empty grid of [Height] rows of
    [Width] cells. *)
Definition wf_World (world : World.t) : Prop :=
  0 < World.Height world ∧
  GoInt.small (World.Height world) ∧
  GoInt.small (World.Width world) ∧
  Z.of_nat (length (Field.Data (World.Field world))) = World.Height world ∧
  rows_of_width (World.Width world) (Field.Data (World.Field world)).

#[global] Instance small_dec z : Decision (GoInt.small z).
Proof. unfold GoInt.small. apply _. Defined.

#[global] Instance rows_of_width_dec width rows :
  Decision (rows_of_width width rows).
Proof. unfold rows_of_width. apply _. Defined.

#[global] Instance wf_Region_dec region : Decision (wf_Region region).
Proof. unfold wf_Region. apply _. Defined.

#[global] Instance wf_World_dec world : Decision (wf_World world).
Proof. unfold wf_World. apply _. Defined.

(** ** The rule in the specification's words *)

(** The alive state at row [r], column [c] of a row array; dead outside. *)
Definition alive_at (rows : list (list Cell.t)) (r c : Z) : bool :=
  default false (row ← index rows r; cell ← index row c; Some (Cell.Alive cell)).

(** The eight surrounding positions, as (row offset, column offset); the
    position itself, (0, 0), is not among them. *)
Definition offsets : list (Z * Z) :=
  [(-1, -1); (-1, 0); (-1, 1); (0, -1); (0, 1); (1, -1); (1, 0); (1, 1)].

(** The alive neighbours of the cell at row [r], column [c]: rows taken as
    they are in the array, columns wrapped modulo [width]. *)
Definition neighbour_count (rows : list (list Cell.t)) (width r c : Z) : Z :=
  foldr Z.add 0
    ((λ d, Z.b2z (alive_at rows (r + d.1) ((c + d.2) `mod` width)))
       <$> offsets).

(** The two [if]s of the rule on the alive state alone. *)
Definition rule (n : Z) (alive : bool) : bool :=
  let alive :=
    if bool_decide (n < 2) || bool_decide (n > 3) then false else alive in
  if bool_decide (n = 3) then true else alive.

(** The cell at row [r], column [c] of a row array. *)
Definition cell_at (rows : list (list Cell.t)) (r c : Z) : option Cell.t :=
  row ← index rows r; index row c.

(** The band a worker returns for a well-formed region: row [y] of the
    input gives row [y - 1] of the output. *)
Definition next_state (region : Region.t) (x y : Z) : Cell.t :=
  default Cell.zero (Worker.nextCell region x y).

Definition next_band (region : Region.t) : list (list Cell.t) :=
  (λ y, (λ x, next_state region x y) <$> seqZ 0 (Region.Width region))
    <$> seqZ 1 (Region.Height region).

(** One round of the inner loop of [Worker.aliveNeighbours], for column
    offset [i] and row offset [j], and what it adds to the count. *)
Definition neighbour_body (region : Region.t) (x y i j n : Z) : option Z :=
  let wx := GoInt.add x i in
  let wy := GoInt.add y j in
  let wx := GoInt.add wx (Region.Width region) in
  wx ← GoInt.rem wx (Region.Width region);
  if bool_decide (j ≠ 0) || bool_decide (i ≠ 0) then
    row ← index (Region.Field region) wy;
    cell ← index row wx;
    Some (if Cell.Alive cell then GoInt.add n 1 else n)
  else Some n.

Definition neighbour_term (region : Region.t) (x y i j : Z) : Z :=
  if bool_decide (j ≠ 0) || bool_decide (i ≠ 0)
  then Z.b2z (alive_at (Region.Field region) (y + j)
                ((x + i) `mod` Region.Width region))
  else 0.

(** ** Partitioning in the specification's words (4.1) *)

(** [start = w * bandHeight] and [end = (w+1) * bandHeight], the last
    worker taking [end = height]; [bandHeight = height / workers]. *)
Definition band_start (height workers w : Z) : Z :=
  w * (height `div` workers).

Definition band_end (height workers w : Z) : Z :=
  if decide (w = workers - 1) then height
  else (w + 1) * (height `div` workers).

(** Row [k] of a grid. *)
Definition row_at (rows : list (list Cell.t)) (k : Z) : list Cell.t :=
  default [] (rows !! Z.to_nat k).

(** The band rows [start .. end - 1] of a grid. *)
Definition band_rows (rows : list (list Cell.t)) (start end_ : Z)
  : list (list Cell.t) :=
  take (Z.to_nat (end_ - start)) (drop (Z.to_nat start) rows).

(** The region of worker [w]: [haloAbove, band rows, haloBelow]. *)
Definition region_of (world : World.t) (workers w : Z) : Region.t :=
  let height := World.Height world in
  let rows := Field.Data (World.Field world) in
  let start := band_start height workers w in
  let end_ := band_end height workers w in
  Region.mk
    (row_at rows ((start - 1 + height) `mod` height)
       :: band_rows rows start end_
       ++ [row_at rows (end_ `mod` height)])
    start end_ (end_ - start) (World.Width world).

(** The next generation, computed on the whole grid as one region. *)
Definition generation (world : World.t) : World.t :=
  World.setData world (next_band (region_of world 1 0)).

(** The heights of a list of regions, added up. *)
Definition total_height (regions : list Region.t) : Z :=
  foldr Z.add 0 (Region.Height <$> regions).

(** ** The session and its operations *)

(** The number of alive cells of a world, counted cell by cell. *)
Definition alive_count (world : World.t) : Z :=
  Z.of_nat
    (length
       (filter (λ cell, Cell.Alive cell = true)
          (concat (Field.Data (World.Field world))))).

(** The alive count of the session is the one of its stored world. *)
Definition snapshot_consistent (b : Threads.Shared) : Prop :=
  Threads.CellsCount b = alive_count (Threads.World b).

(** The session is empty: no turn, no alive cell, the empty world. *)
Definition session_empty (b : Threads.Shared) : Prop :=
  Threads.Turns b = 0 ∧ Threads.CellsCount b = 0 ∧
  Threads.World b = World.zero.

(** No action of the schedule asks for a run of [Process]. *)
Definition no_run (schedule : list Threads.Action) : Prop :=
  Forall (λ a, ∀ req, a ≠ Threads.Arrive (Threads.CallProcess req)) schedule.

(** The thread is a call of [Quit] that has returned. *)
Definition Quit_returned (t : Threads.Thread) : Prop :=
  Threads.point t = Threads.Returned ∧
  ∃ res, Threads.frame t = Threads.InQuit res.

(** The thread is no run loop, and no call of [Quit] that has returned. *)
Definition waits_for_run (t : Threads.Thread) : Prop :=
  match Threads.frame t with
  | Threads.InProcess _ _ _ _ => False
  | Threads.InQuit _ => Threads.point t ≠ Threads.Returned
  | _ => True
  end.

(** The states of a broker: the session, and the frame of the run in
    progress if there is one.  A broker starts with [init]; calls are
    served at any time; a run is entered when none is in progress, makes
    steps, and returns. *)
Inductive reachable : option Process.Frame * BrokerService.t → Prop :=
  | reach_init addresses : reachable (None, BrokerService.init addresses)
  | reach_call fr b call :
      reachable (fr, b) → reachable (fr, Process.serve call b)
  | reach_enter b req f b' :
      reachable (None, b) → Process.enter req b = Process.Running f b' →
      reachable (Some f, b')
  | reach_step f b pick a f' b' :
      reachable (Some f, b) →
      Process.step pick f b = Some (a, Process.Running f' b') →
      reachable (Some f', b')
  | reach_return f b pick a res b' :
      reachable (Some f, b) →
      Process.step pick f b = Some (a, Process.Returned res b') →
      reachable (None, b').

(** The run loop is at the start of an iteration. *)
Definition at_iteration (f : Process.Frame) : Prop :=
  Process.point f = Process.AtLoop ∧ Process.turn f < Process.turns f.

(** A pending quit is not passed over for a generation. *)
Definition quit_never_skipped (f : Process.Frame) (b : BrokerService.t)
  : Prop :=
  BrokerService.quit b ≠ [] →
  ∀ a c, Process.steps_to f b a c → a ≠ Process.DidCompute.

(** The order of the specification: the pause check, then the quit check,
    then the generation. *)
Definition priority_order (f : Process.Frame) (b : BrokerService.t) : Prop :=
  ∀ a c, Process.steps_to f b a c →
    match BrokerService.pause b, BrokerService.quit b with
    | _ :: _, _ => a = Process.DidPause
    | [], _ :: _ => a = Process.DidQuit
    | [], [] => a = Process.DidCompute ∨ a = Process.DidIdle
    end.

(** A pool that does not divide the height of the grid, or exceeds it. *)
Definition uneven_pool (req : BrokerProcessRequest.t) (b : BrokerService.t)
  : Prop :=
  let height := World.Height (BrokerProcessRequest.World req) in
  let workers := Z.of_nat (length (BrokerService.addresses b)) in
  height `mod` workers ≠ 0 ∨ height < workers.

(** The run is refused before it starts: no step of it is a generation. *)
Definition rejected_before_run (req : BrokerProcessRequest.t)
  (b : BrokerService.t) : Prop :=
  ∀ f b' pick a c,
    Process.enter req b = Process.Running f b' →
    Process.step pick f b' = Some (a, c) → a ≠ Process.DidCompute.

(** No signal waits and the loop is not paused. *)
Definition quiet_session (b : BrokerService.t) : Prop :=
  BrokerService.quit b = [] ∧ BrokerService.pause b = [] ∧
  BrokerService.isPaused b = false.

(** The bands of a pool, whatever its size: worker [w] starts at row
    [w * (height / workers)]; every worker but the last gets
    [height / workers] rows, which is none when the pool exceeds the
    height, and the last worker gets all the rows that are left. *)
Definition remainder_to_last (world : World.t) (workers : Z) : Prop :=
  let height := World.Height world in
  ∃ regions,
    Broker.regions world workers = Some regions ∧
    Z.of_nat (length regions) = workers ∧
    ∀ (w : nat) r, regions !! w = Some r →
      Region.Start r = Z.of_nat w * (height `div` workers) ∧
      Region.Height r
      = (if decide (Z.of_nat w = workers - 1)
         then height - (workers - 1) * (height `div` workers)
         else height `div` workers) ∧
      (height < workers → Z.of_nat w ≠ workers - 1 → Region.Height r = 0).

(** A run of [turns] turns that no call disturbs returns after all of
    them, with the world of that many generations. *)
Definition completes (world : World.t) (turns : nat) (b : BrokerService.t)
  : Prop :=
  ∃ b',
    Process.run (Process.quiet (S turns))
      (Process.enter (BrokerProcessRequest.mk (Z.of_nat turns) world) b)
    = Some (Process.Returned
              (BrokerProcessResponse.mk (Nat.iter turns generation world)
                 (BrokerService.Turns b + Z.of_nat turns))
              b') ∧
    BrokerService.Turns b' = BrokerService.Turns b + Z.of_nat turns.

(** A run of [turns] turns that no call disturbs is entered and panics in
    its first generation. *)
Definition panics_mid_run (world : World.t) (turns : nat)
  (b : BrokerService.t) : Prop :=
  (∃ f,
     Process.enter (BrokerProcessRequest.mk (Z.of_nat turns) world) b
     = Process.Running f b ∧ at_iteration f) ∧
  Broker.World_update world (BrokerService.addresses b) = None ∧
  Process.run (Process.quiet (S turns))
    (Process.enter (BrokerProcessRequest.mk (Z.of_nat turns) world) b)
  = None.

(** ** Concrete grids *)

Definition mkrow (y : Z) (bs : list bool) : list Cell.t :=
  imap (λ x b, Cell.mk (Z.of_nat x) y b) bs.

Definition mkworld (width : Z) (g : list (list bool)) : World.t :=
  World.mk
    (Field.mk (imap (λ y r, mkrow (Z.of_nat y) r) g) (Z.of_nat (length g))
       width)
    (Z.of_nat (length g)) width.

(** The glider of scenario B on a 4 by 4 torus. *)
Definition glider : World.t :=
  mkworld 4
    [[false; true; false; false];
     [false; false; true; false];
     [true; true; true; false];
     [false; false; false; false]].

(** Two rows of three cells, and a pool of three workers for them. *)
Definition two_rows : World.t :=
  mkworld 3 [[true; true; false]; [true; false; false]].

Definition pool3 : list string := ["w0"; "w1"; "w2"]%string.

(** A region of one band row between two halo rows. *)
Definition one_row_region : Region.t :=
  Region.mk
    [mkrow 2 [true; false; false];
     mkrow 0 [true; true; false];
     mkrow 1 [false; false; false]]
    0 1 1 3.

(** A run of two turns on the glider, in its first iteration and after
    one generation, with a pause and a quit both waiting. *)
Definition frame0 : Process.Frame :=
  Process.mkFrame 2 glider 0 BrokerProcessResponse.zero Process.AtLoop.

Definition both_waiting : BrokerService.t :=
  BrokerService.mk 0 0 World.zero [true] [] [true] true pool3.

Definition quit_waiting : BrokerService.t :=
  BrokerService.mk 0 0 World.zero [true] [] [] false pool3.

(** The client asks for two turns and quits after the first. *)
Definition quit_after_one : list (list Process.Call * Process.Ready) :=
  [([], Process.PauseReady); ([Process.CallQuit], Process.PauseReady)].

(** A run of three turns on the glider, thread 0.  [Quit], thread 1,
    arrives in the second iteration, when the loop has taken the [default]
    case, and makes its statements up to the send while the generation is
    in flight; the loop then publishes the generation and receives the
    signal in its next iteration.  A [Report], thread 2, follows. *)
Definition quit_during_generation : list Threads.Action :=
  [Threads.Arrive (Threads.CallProcess (BrokerProcessRequest.mk 3 glider))]
  ++ Threads.steps 8 0 (* the first iteration, lines 228 to 248 *)
  ++ Threads.steps 3 0 (* lines 228, 229 and 240 *)
  ++ [Threads.Arrive Threads.CallQuit]
  ++ Threads.steps 5 1 (* lines 266 to 272 *)
  ++ Threads.steps 5 0 (* lines 242 to 248 *)
  ++ Threads.steps 2 0 (* lines 228 and 229: the quit is received *)
  ++ [Threads.Arrive Threads.CallReport]
  ++ Threads.steps 2 2 (* lines 217 and 218 *).

(** [Quit] on a broker that runs nothing: its statements up to the send. *)
Definition quit_without_run : list Threads.Action :=
  [Threads.Arrive Threads.CallQuit] ++ Threads.steps 5 0.

(** A run of two turns on the glider, thread 0, up to the assignment of
    [b.CellsCount] in its first iteration. *)
Definition run_to_count : list Threads.Action :=
  [Threads.Arrive (Threads.CallProcess (BrokerProcessRequest.mk 2 glider))]
  ++ Threads.steps 6 0 (* lines 228, 229, 240, 242, 244 and 245 *).

(** [Quit], thread 1, makes its statements up to the send between the
    assignments of [b.CellsCount] and of [b.World]; the loop receives the
    signal in its next iteration. *)
Definition quit_between_count_and_world : list Threads.Action :=
  run_to_count
  ++ [Threads.Arrive Threads.CallQuit]
  ++ Threads.steps 5 1 (* lines 266 to 272 *)
  ++ Threads.steps 2 0 (* lines 246 and 248 *)
  ++ Threads.steps 2 0 (* lines 228 and 229: the quit is received *).

(** A [Report], thread 1, and a [Save], thread 2, between the assignments
    of [b.CellsCount] and of [b.World]. *)
Definition report_and_save_between : list Threads.Action :=
  run_to_count
  ++ [Threads.Arrive Threads.CallReport]
  ++ Threads.steps 2 1 (* lines 217 and 218 *)
  ++ [Threads.Arrive Threads.CallSave]
  ++ Threads.steps 2 2 (* lines 260 and 261 *).

(** * Properties *)

(** ** Arithmetic that does not wrap *)

Lemma wrap_id z : - 2 ^ 63 <= z < 2 ^ 63 → GoInt.wrap z = z.
Proof.
  intros Hz. unfold GoInt.wrap.
  rewrite Z.mod_small by lia. lia.
Qed.

Lemma add_id a b : - 2 ^ 63 <= a + b < 2 ^ 63 → GoInt.add a b = a + b.
Proof. apply wrap_id. Qed.

Lemma sub_id a b : - 2 ^ 63 <= a - b < 2 ^ 63 → GoInt.sub a b = a - b.
Proof. apply wrap_id. Qed.

Lemma mul_id a b : - 2 ^ 63 <= a * b < 2 ^ 63 → GoInt.mul a b = a * b.
Proof. apply wrap_id. Qed.

Lemma quot_id a b :
  0 <= a < 2 ^ 63 → 0 < b → GoInt.quot a b = Some (a `div` b).
Proof.
  intros Ha Hb. unfold GoInt.quot.
  destruct (decide (b = 0)) as [->|_]; [lia|].
  rewrite Z.quot_div_nonneg by lia.
  rewrite wrap_id; [done|].
  pose proof (Z.div_pos a b). pose proof (Z.div_le_upper_bound a b a).
  nia.
Qed.

Lemma rem_id a b : 0 <= a → 0 < b → GoInt.rem a b = Some (a `mod` b).
Proof.
  intros Ha Hb. unfold GoInt.rem.
  destruct (decide (b = 0)) as [->|_]; [lia|].
  by rewrite Z.rem_mod_nonneg by lia.
Qed.

(** ** Slices *)

Lemma index_nat {A} (s : list A) (i : nat) : index s (Z.of_nat i) = s !! i.
Proof.
  unfold index. destruct (decide _) as [_|?]; [|lia].
  by rewrite Nat2Z.id.
Qed.

Lemma index_Some_lt {A} (s : list A) i x :
  index s i = Some x → 0 <= i < Z.of_nat (length s).
Proof.
  unfold index. destruct (decide _) as [?|?]; [|done].
  intros H%lookup_lt_Some. lia.
Qed.

Lemma index_is_Some {A} (s : list A) i :
  0 <= i < Z.of_nat (length s) → is_Some (index s i).
Proof.
  intros Hi. unfold index. destruct (decide _) as [_|?]; [|lia].
  apply lookup_lt_is_Some. lia.
Qed.

Lemma store_nat {A} (s : list A) (i : nat) v :
  (i < length s)%nat → store s (Z.of_nat i) v = Some (<[i := v]> s).
Proof.
  intros Hi. unfold store. destruct (decide _) as [_|?]; [|lia].
  by rewrite Nat2Z.id.
Qed.

Lemma make_nat {A} (zero : A) (n : nat) :
  make zero (Z.of_nat n) = Some (replicate n zero).
Proof.
  unfold make. destruct (decide _) as [_|?]; [|lia].
  by rewrite Nat2Z.id.
Qed.

(** ** Loops *)

(** An invariant indexed by the number of rounds done. *)
Lemma for_range_inv {S} (P : nat → S → Prop) n i body (s : S) :
  P O s →
  (∀ j s, (j < n)%nat → P j s →
     ∃ s', body (i + Z.of_nat j) s = Some s' ∧ P (Datatypes.S j) s') →
  ∃ s', for_range n i body s = Some s' ∧ P n s'.
Proof.
  revert P i s. induction n as [|n IH]; intros P i s H0 Hstep.
  - by exists s.
  - destruct (Hstep O s) as (s1 & Hb & H1); [lia|done|].
    rewrite Z.add_0_r in Hb. simpl. rewrite Hb. simpl.
    apply (IH (λ j, P (Datatypes.S j))); [done|].
    intros j s' Hj HP.
    destruct (Hstep (Datatypes.S j) s') as (s2 & Hb2 & H2); [lia|done|].
    exists s2. split; [|done].
    rewrite <- Hb2. f_equal. lia.
Qed.

Lemma filled_0 {A} p (g : nat → A) data : filled p g 0 data = data.
Proof. unfold filled. simpl. rewrite Nat.add_0_r. apply take_drop. Qed.

Lemma filled_S {A} p (g : nat → A) j data :
  (p + j < length data)%nat →
  <[(p + j)%nat := g j]> (filled p g j data) = filled p g (Datatypes.S j) data.
Proof.
  intros Hlt. unfold filled.
  destruct (lookup_lt_is_Some_2 data (p + j)%nat Hlt) as [x Hx].
  rewrite (drop_S _ _ _ Hx).
  rewrite seq_S, fmap_app. simpl.
  rewrite insert_app_r_alt by (rewrite length_take; lia).
  rewrite length_take, Nat.min_l by lia.
  rewrite insert_app_r_alt by (rewrite length_fmap, length_seq; lia).
  rewrite length_fmap, length_seq.
  replace (p + j - p - j)%nat with O by lia. simpl.
  rewrite <- (assoc_L (++)). simpl.
  by replace (p + Datatypes.S j)%nat with (Datatypes.S (p + j)) by lia.
Qed.

Lemma filled_length {A} p (g : nat → A) j data :
  (p + j <= length data)%nat → length (filled p g j data) = length data.
Proof.
  intros. unfold filled.
  rewrite !length_app, length_take, length_fmap, length_seq, length_drop. lia.
Qed.

Lemma for_range_filled {A} (g : nat → A) body n (p : nat) lo (data : list A) :
  (p + n <= length data)%nat →
  (∀ j, (j < n)%nat →
     body (lo + Z.of_nat j) (filled p g j data)
     = store (filled p g j data) (Z.of_nat (p + j)) (g j)) →
  for_range n lo body data = Some (filled p g n data).
Proof.
  intros Hlen Hbody.
  destruct (for_range_inv (λ j d, d = filled p g j data) n lo body data)
    as (d & Hd & ->); [by rewrite filled_0| |done].
  intros j d Hj ->. eexists. split; [|done].
  rewrite Hbody by done.
  rewrite store_nat by (rewrite filled_length; lia).
  by rewrite filled_S by lia.
Qed.

Lemma for_range_3 {S} i body (s : S) :
  for_range 3 i body s
  = s1 ← body i s; s2 ← body (i + 1) s1; s3 ← body (i + 1 + 1) s2; Some s3.
Proof. reflexivity. Qed.

Lemma bind_Some {A B} (f : A → option B) (a : A) : Some a ≫= f = f a.
Proof. reflexivity. Qed.

Lemma fmap_const_seq {A} (c : A) j n : (λ _, c) <$> seq j n = replicate n c.
Proof.
  revert j. induction n as [|n IH]; intros j; [done|].
  simpl. by rewrite IH.
Qed.

Lemma fmap_seq_seqZ {A} (g : Z → A) (lo : Z) (n : nat) :
  (λ j, g (lo + Z.of_nat j)) <$> seq 0 n = g <$> seqZ lo (Z.of_nat n).
Proof.
  unfold seqZ. rewrite Nat2Z.id, <- list_fmap_compose.
  apply list_fmap_ext. intros _ j _. simpl. f_equal. lia.
Qed.

(** ** The worker's step *)

Lemma Field_cultivate_eq field height width :
  0 <= height → 0 <= width →
  Worker.Field_cultivate field height width
  = Some (Field.setData field
            (replicate (Z.to_nat height)
               (replicate (Z.to_nat width) Cell.zero))).
Proof.
  intros Hh Hw. unfold Worker.Field_cultivate, make.
  destruct (decide (0 <= height)) as [_|?]; [|lia]. simpl.
  unfold for_lt. rewrite Z.sub_0_r, Nat2Z.id, length_replicate.
  rewrite (for_range_filled
             (λ _, replicate (Z.to_nat width) Cell.zero) _ _ O).
  - simpl. unfold filled.
    rewrite take_0, fmap_const_seq. simpl.
    rewrite drop_ge by (rewrite length_replicate; lia).
    by rewrite app_nil_r.
  - rewrite length_replicate. lia.
  - intros j Hj. destruct (decide (0 <= width)) as [_|?]; [|lia].
    simpl. by rewrite Z.add_0_l.
Qed.

Section Neighbours.

Variable region : Region.t.
Variables x y : Z.
Hypothesis Hwidth : GoInt.small (Region.Width region).
Hypothesis Hrows : rows_of_width (Region.Width region) (Region.Field region).
Hypothesis Hx : 0 <= x < Region.Width region.
Hypothesis Hy : 1 <= y < Z.of_nat (length (Region.Field region)) - 1.
Hypothesis Hlen : Z.of_nat (length (Region.Field region)) < 2 ^ 63.

Lemma neighbour_cell i j :
  -1 <= i <= 1 → -1 <= j <= 1 →
  ∃ row cell,
    index (Region.Field region) (y + j) = Some row ∧
    index row ((x + i) `mod` Region.Width region) = Some cell ∧
    alive_at (Region.Field region) (y + j) ((x + i) `mod` Region.Width region)
    = Cell.Alive cell.
Proof using Hwidth Hrows Hx Hy.
  intros Hi Hj.
  destruct (index_is_Some (Region.Field region) (y + j)) as [row Hrow];
    [lia|].
  assert (Z.of_nat (length row) = Region.Width region) as Hlr.
  { unfold index in Hrow. destruct (decide _); [|done].
    by eapply (Forall_lookup_1 _ _ _ _ Hrows). }
  destruct (index_is_Some row ((x + i) `mod` Region.Width region))
    as [cell Hcell].
  { rewrite Hlr. apply Z.mod_pos_bound. lia. }
  exists row, cell. split_and!; [done..|].
  unfold alive_at. rewrite Hrow. simpl. by rewrite Hcell.
Qed.

Lemma neighbour_round i j n :
  -1 <= i <= 1 → -1 <= j <= 1 → 0 <= n <= 8 →
  neighbour_body region x y i j n = Some (n + neighbour_term region x y i j).
Proof using Hwidth Hrows Hx Hy Hlen.
  intros Hi Hj Hn.
  unfold neighbour_body, neighbour_term, GoInt.small in *. cbv zeta.
  rewrite (add_id x i) by lia.
  rewrite (add_id y j) by lia.
  rewrite (add_id (x + i)) by lia.
  rewrite rem_id by lia. simpl.
  rewrite <- (Z.add_mod_idemp_r (x + i)) by lia.
  rewrite Z.mod_same, Z.add_0_r by lia.
  destruct (bool_decide (j ≠ 0) || bool_decide (i ≠ 0)); [|f_equal; lia].
  destruct (neighbour_cell i j) as (row & cell & -> & Hcell & ->); [done..|].
  simpl. rewrite Hcell. simpl.
  destruct (Cell.Alive cell); simpl; [|f_equal; lia].
  by rewrite add_id by lia.
Qed.

Lemma neighbour_term_range i j : 0 <= neighbour_term region x y i j <= 1.
Proof.
  unfold neighbour_term.
  destruct (_ || _); [|lia]. destruct (alive_at _ _ _); simpl; lia.
Qed.

Lemma neighbour_column i n :
  -1 <= i <= 1 → 0 <= n <= 6 →
  for_range 3 (-1) (neighbour_body region x y i) n
  = Some (n + neighbour_term region x y i (-1) + neighbour_term region x y i 0
          + neighbour_term region x y i 1).
Proof using Hwidth Hrows Hx Hy Hlen.
  intros Hi Hn.
  pose proof (neighbour_term_range i (-1)).
  pose proof (neighbour_term_range i 0).
  pose proof (neighbour_term_range i 1).
  rewrite for_range_3. change (-1 + 1 + 1) with 1. change (-1 + 1) with 0.
  rewrite neighbour_round, bind_Some by lia.
  rewrite neighbour_round, bind_Some by lia.
  rewrite neighbour_round, bind_Some by lia.
  done.
Qed.

Lemma aliveNeighbours_eq :
  Worker.aliveNeighbours region x y
  = Some (neighbour_count (Region.Field region) (Region.Width region) y x).
Proof using Hwidth Hrows Hx Hy Hlen.
  change (Worker.aliveNeighbours region x y)
    with (for_range 3 (-1)
            (λ i n, for_range 3 (-1) (neighbour_body region x y i) n) 0).
  pose proof (neighbour_term_range (-1) (-1)).
  pose proof (neighbour_term_range (-1) 0).
  pose proof (neighbour_term_range (-1) 1).
  pose proof (neighbour_term_range 0 (-1)).
  pose proof (neighbour_term_range 0 0).
  pose proof (neighbour_term_range 0 1).
  rewrite for_range_3. change (-1 + 1 + 1) with 1. change (-1 + 1) with 0.
  cbv beta.
  rewrite neighbour_column, bind_Some by lia.
  rewrite neighbour_column, bind_Some by lia.
  rewrite neighbour_column, bind_Some by lia.
  f_equal. unfold neighbour_count, neighbour_term. simpl. lia.
Qed.

End Neighbours.

Lemma filled_all {A} (g : nat → A) (data : list A) :
  filled 0 g (length data) data = g <$> seq 0 (length data).
Proof.
  unfold filled. rewrite take_0, drop_ge by (simpl; lia).
  simpl. by rewrite app_nil_r.
Qed.

Lemma filled_lookup_next {A} (g : nat → A) j (data : list A) :
  filled 0 g j data !! j = data !! j.
Proof.
  unfold filled. rewrite take_0. simpl.
  rewrite lookup_app_r by (rewrite length_fmap, length_seq; lia).
  rewrite length_fmap, length_seq, lookup_drop. f_equal. lia.
Qed.

Section WorkerStep.

Variable region : Region.t.
Hypothesis Hwf : wf_Region region.

Lemma nextCell_Some x y :
  0 <= x < Region.Width region → 1 <= y <= Region.Height region →
  ∃ cin,
    cell_at (Region.Field region) y x = Some cin ∧
    Worker.nextCell region x y
    = Some (Cell.mk (Cell.X cin) (Cell.Y cin)
              (rule (neighbour_count (Region.Field region)
                       (Region.Width region) y x)
                 (Cell.Alive cin))).
Proof using Hwf.
  intros Hx Hy. destruct Hwf as (Hh & Hw & Hlen & Hrows).
  unfold GoInt.small in *.
  destruct (index_is_Some (Region.Field region) y) as [row Hrow]; [lia|].
  assert (Z.of_nat (length row) = Region.Width region) as Hlr.
  { unfold index in Hrow. destruct (decide _); [|done].
    by eapply (Forall_lookup_1 _ _ _ _ Hrows). }
  destruct (index_is_Some row x) as [cin Hcin]; [lia|].
  exists cin. unfold cell_at, Worker.nextCell.
  rewrite Hrow. simpl. rewrite Hcin. simpl. split; [done|].
  rewrite aliveNeighbours_eq by (unfold GoInt.small; done || lia).
  simpl. f_equal. unfold rule, Cell.setAlive.
  destruct (_ || _), (bool_decide (_ = 3)); by destruct cin.
Qed.

Lemma row_loop y (r : nat) (data : list (list Cell.t)) row0 :
  1 <= y <= Region.Height region → y - 1 = Z.of_nat r →
  data !! r = Some row0 → Z.of_nat (length row0) = Region.Width region →
  for_lt 0 (Region.Width region)
    (λ x data,
       cell ← Worker.nextCell region x y;
       Worker.store2 data (GoInt.sub y DefaultHaloOffset) x cell)
    data
  = store data (Z.of_nat r)
      ((λ x, next_state region x y) <$> seqZ 0 (Region.Width region)).
Proof using Hwf.
  intros Hy Hr Hrow0 Hlen0.
  pose proof Hwf as (Hh & Hw & _). unfold GoInt.small in *.
  pose proof (lookup_lt_Some _ _ _ Hrow0) as Hrlt.
  set (g := λ k : nat, next_state region (Z.of_nat k) y).
  unfold for_lt. rewrite Z.sub_0_r.
  destruct (for_range_inv
              (λ k d, d = <[r := filled 0 g k row0]> data)
              (Z.to_nat (Region.Width region)) 0
              (λ x data,
                 cell ← Worker.nextCell region x y;
                 Worker.store2 data (GoInt.sub y DefaultHaloOffset) x cell)
              data) as (d & -> & ->).
  - rewrite filled_0. by rewrite list_insert_id.
  - intros k d Hk ->. rewrite Z.add_0_l.
    destruct (nextCell_Some (Z.of_nat k) y) as (cin & _ & Hn); [lia..|].
    assert (g k = next_state region (Z.of_nat k) y) as Hg by done.
    unfold next_state in Hg. rewrite Hn in Hg |- *. simpl in Hg.
    rewrite <- Hg. simpl.
    unfold DefaultHaloOffset. rewrite sub_id by lia. rewrite Hr.
    unfold Worker.store2. rewrite index_nat.
    rewrite list_lookup_insert_eq by done. simpl.
    rewrite store_nat by (rewrite filled_length; lia). simpl.
    rewrite store_nat by (rewrite length_insert; lia).
    rewrite list_insert_insert_eq.
    eexists. split; [done|].
    f_equal. apply (filled_S 0). simpl. lia.
  - rewrite store_nat by done. do 2 f_equal.
    replace (Z.to_nat (Region.Width region)) with (length row0) by lia.
    rewrite filled_all, <- Hlen0. unfold g.
    by rewrite <- (fmap_seq_seqZ (λ x, next_state region x y) 0).
Qed.

Lemma Region_update_eq :
  Worker.Region_update region
  = Some (Region.setField region (next_band region)).
Proof using Hwf.
  pose proof Hwf as (Hh & Hw & _). unfold GoInt.small in *.
  unfold Worker.Region_update.
  rewrite Field_cultivate_eq by lia. simpl.
  unfold DefaultHaloOffset, for_lt at 1.
  rewrite add_id by lia.
  replace (Region.Height region + 1 - 1) with (Region.Height region) by lia.
  set (h := Z.to_nat (Region.Height region)).
  set (row0 := replicate (Z.to_nat (Region.Width region)) Cell.zero).
  set (g := λ j : nat,
         (λ x, next_state region x (1 + Z.of_nat j))
           <$> seqZ 0 (Region.Width region)).
  rewrite (for_range_filled g _ _ O).
  - rewrite bind_Some. do 2 f_equal.
    replace h with (length (replicate h row0)) at 1
      by apply length_replicate.
    rewrite filled_all, length_replicate. unfold next_band.
    replace (seqZ 1 (Region.Height region)) with (seqZ 1 (Z.of_nat h))
      by (f_equal; lia).
    by rewrite <- (fmap_seq_seqZ
                     (λ y, (λ x, next_state region x y)
                             <$> seqZ 0 (Region.Width region)) 1).
  - rewrite length_replicate. lia.
  - intros j Hj. simpl.
    apply (row_loop (1 + Z.of_nat j) j _ row0); [lia|lia| |].
    + rewrite filled_lookup_next. apply lookup_replicate_2. done.
    + unfold row0. rewrite length_replicate. lia.
Qed.

End WorkerStep.

(** ** Partitioning *)

Lemma index_row_at (rows : list (list Cell.t)) k :
  0 <= k < Z.of_nat (length rows) → index rows k = Some (row_at rows k).
Proof.
  intros Hk. destruct (index_is_Some rows k Hk) as [row Hrow].
  rewrite Hrow. unfold index in Hrow. destruct (decide _); [|done].
  unfold row_at. by rewrite Hrow.
Qed.

Lemma fmap_row_at (rows : list (list Cell.t)) (s k : nat) :
  (s + k <= length rows)%nat →
  (λ j : nat, row_at rows (Z.of_nat s + Z.of_nat j)) <$> seq 0 k
  = take k (drop s rows).
Proof.
  intros Hlen. apply list_eq. intros i.
  rewrite list_lookup_fmap.
  destruct (decide (i < k)%nat) as [Hi|Hi].
  - rewrite lookup_seq_lt, lookup_take_lt, lookup_drop by done. simpl.
    unfold row_at. replace (Z.to_nat (Z.of_nat s + Z.of_nat i)) with (s + i)%nat
      by lia.
    destruct (lookup_lt_is_Some_2 rows (s + i)%nat) as [row ->]; [lia|done].
  - by rewrite lookup_seq_ge, lookup_take_ge by lia.
Qed.

Lemma halo_rows_built {A} (z up down : A) (g : nat → A) (k : nat) :
  <[S k := down]> (filled 1 g k (<[O := up]> (replicate (k + 2) z)))
  = up :: (g <$> seq 0 k) ++ [down].
Proof.
  replace (k + 2)%nat with (S (k + 1)) by lia.
  unfold filled. simpl. f_equal.
  rewrite drop_replicate. replace (k + 1 - k)%nat with 1%nat by lia.
  rewrite insert_app_r_alt by (rewrite length_fmap, length_seq; lia).
  rewrite length_fmap, length_seq. by replace (k - k)%nat with O by lia.
Qed.

Section Partition.

Variable world : World.t.
Variable workers : Z.
Hypothesis Hwf : wf_World world.
Hypothesis Hworkers : 1 <= workers < 2 ^ 62.

Lemma band_bounds w :
  0 <= w < workers →
  0 <= band_start (World.Height world) workers w
    <= band_end (World.Height world) workers w
  ∧ band_end (World.Height world) workers w <= World.Height world.
Proof using Hwf Hworkers.
  intros Hw. destruct Hwf as (Hpos & Hh & _). unfold GoInt.small in *.
  unfold band_start, band_end.
  pose proof (Z.mul_div_le (World.Height world) workers).
  pose proof (Z.div_pos (World.Height world) workers).
  destruct (decide (w = workers - 1)); nia.
Qed.

Lemma band_end_next w :
  0 <= w < workers - 1 →
  band_end (World.Height world) workers w
  = band_start (World.Height world) workers (w + 1).
Proof.
  intros Hw. unfold band_start, band_end.
  destruct (decide (w = workers - 1)); [lia|done].
Qed.

Lemma band_end_below w :
  0 <= w < workers - 1 →
  workers <= World.Height world →
  band_end (World.Height world) workers w < World.Height world.
Proof using Hwf Hworkers.
  intros Hw Hle. destruct Hwf as (Hpos & Hh & _). unfold GoInt.small in *.
  unfold band_end. destruct (decide (w = workers - 1)); [lia|].
  pose proof (Z.mul_div_le (World.Height world) workers).
  assert (1 <= World.Height world `div` workers)
    by (apply Z.div_le_lower_bound; lia).
  nia.
Qed.

Lemma band_nonempty w :
  0 <= w < workers → workers <= World.Height world →
  band_start (World.Height world) workers w
  < band_end (World.Height world) workers w.
Proof using Hwf Hworkers.
  intros Hw Hle. destruct Hwf as (Hpos & Hh & _). unfold GoInt.small in *.
  unfold band_start, band_end.
  pose proof (Z.mul_div_le (World.Height world) workers).
  assert (1 <= World.Height world `div` workers)
    by (apply Z.div_le_lower_bound; lia).
  destruct (decide (w = workers - 1)); nia.
Qed.

Lemma World_region_eq w :
  0 <= w < workers →
  Broker.World_region world w workers = Some (region_of world workers w).
Proof using Hwf Hworkers.
  intros Hw. pose proof (band_bounds w Hw) as Hb.
  destruct Hwf as (Hpos & Hh & Hwd & Hlen & Hrows).
  unfold GoInt.small in *.
  unfold Broker.World_region, region_of.
  rewrite quot_id by lia. rewrite bind_Some.
  rewrite (sub_id workers 1) by lia.
  pose proof (Z.mul_div_le (World.Height world) workers).
  pose proof (Z.div_pos (World.Height world) workers).
  assert (GoInt.mul w (World.Height world `div` workers)
          = band_start (World.Height world) workers w) as ->.
  { unfold band_start. apply mul_id. unfold band_start in Hb. nia. }
  assert ((if decide (w = workers - 1) then World.Height world
           else GoInt.mul (GoInt.add w 1) (World.Height world `div` workers))
          = band_end (World.Height world) workers w) as ->.
  { unfold band_end in *. destruct (decide (w = workers - 1)); [done|].
    rewrite add_id by lia. apply mul_id. nia. }
  set (s := band_start (World.Height world) workers w) in *.
  set (e := band_end (World.Height world) workers w) in *.
  clearbody s e. cbv zeta. rewrite (sub_id e s) by lia.
  rewrite (rem_id e) by lia. rewrite bind_Some.
  rewrite (sub_id s 1), (add_id (s - 1)) by lia.
  rewrite (rem_id (s - 1 + World.Height world)) by lia. rewrite bind_Some.
  rewrite (add_id (e - s) 2) by lia.
  set (k := Z.to_nat (e - s)).
  replace (e - s + 2) with (Z.of_nat (k + 2)) by lia.
  rewrite make_nat, bind_Some.
  rewrite !index_row_at by (rewrite Hlen; apply Z.mod_pos_bound; lia).
  rewrite bind_Some, (add_id (e - s) 1) by lia.
  rewrite (store_nat _ O) by (rewrite length_replicate; lia).
  rewrite bind_Some. unfold for_le.
  replace (Z.to_nat (e - s + 1 - 1)) with k by lia.
  rewrite (for_range_filled
             (λ j, row_at (Field.Data (World.Field world))
                     (Z.of_nat (Z.to_nat s) + Z.of_nat j)) _ _ 1).
  - rewrite !bind_Some.
    replace (e - s + 1) with (Z.of_nat (S k)) by lia.
    rewrite store_nat
      by (rewrite filled_length; rewrite length_insert, length_replicate; lia).
    rewrite bind_Some. do 2 f_equal.
    rewrite halo_rows_built. f_equal. f_equal.
    rewrite fmap_row_at by lia. done.
  - rewrite length_insert, length_replicate. lia.
  - intros j Hj.
    rewrite (add_id s), sub_id by lia.
    rewrite index_row_at by lia. rewrite bind_Some.
    f_equal; [lia|]. f_equal. lia.
Qed.

Lemma row_at_width k :
  0 <= k < World.Height world →
  Z.of_nat (length (row_at (Field.Data (World.Field world)) k))
  = World.Width world.
Proof using Hwf.
  intros Hk. destruct Hwf as (_ & _ & _ & Hlen & Hrows).
  destruct (lookup_lt_is_Some_2 (Field.Data (World.Field world)) (Z.to_nat k))
    as [row Hrow]; [lia|].
  unfold row_at. rewrite Hrow. simpl.
  by eapply (Forall_lookup_1 _ _ _ _ Hrows).
Qed.

Lemma region_of_wf w :
  0 <= w < workers → wf_Region (region_of world workers w).
Proof using Hwf Hworkers.
  intros Hw. pose proof (band_bounds w Hw) as Hb.
  pose proof Hwf as (Hpos & Hh & Hwd & Hlen & Hrows).
  unfold wf_Region, region_of, band_rows. simpl.
  unfold GoInt.small in *. split_and!; try lia.
  - rewrite length_app, length_take, length_drop. simpl. lia.
  - apply Forall_cons. split.
    { apply row_at_width, Z.mod_pos_bound. lia. }
    apply Forall_app. split.
    { by apply Forall_take, Forall_drop. }
    apply Forall_singleton. apply row_at_width, Z.mod_pos_bound. lia.
Qed.

(** Row [i] of a region is the grid row [start - 1 + i], on the torus. *)
Lemma region_of_index w i :
  0 <= w < workers →
  0 <= i <= Region.Height (region_of world workers w) + 1 →
  index (Region.Field (region_of world workers w)) i
  = index (Field.Data (World.Field world))
      ((Region.Start (region_of world workers w) - 1 + i)
         `mod` World.Height world).
Proof using Hwf Hworkers.
  intros Hw Hi. pose proof (band_bounds w Hw) as Hb.
  pose proof Hwf as (Hpos & Hh & Hwd & Hlen & Hrows).
  unfold region_of, band_rows in *. simpl in *.
  set (s := band_start (World.Height world) workers w) in *.
  set (e := band_end (World.Height world) workers w) in *.
  clearbody s e.
  rewrite (index_row_at _ (_ `mod` _))
    by (rewrite Hlen; apply Z.mod_pos_bound; lia).
  unfold index at 1. destruct (decide (0 <= i)) as [_|?]; [|lia].
  destruct (decide (i = 0)) as [->|Hi0].
  { simpl. do 2 f_equal. rewrite Z.add_0_r.
    rewrite <- (Z.add_mod_idemp_r (s - 1)) by lia.
    by rewrite Z.mod_same, Z.add_0_r by lia. }
  replace (Z.to_nat i) with (S (Z.to_nat (i - 1))) by lia.
  rewrite lookup_cons_ne_0, Nat.pred_succ by done.
  destruct (decide (i = e - s + 1)) as [->|Hie].
  - rewrite lookup_app_r by (rewrite length_take, length_drop; lia).
    rewrite length_take, length_drop.
    replace (_ - _)%nat with O by lia. simpl. do 3 f_equal. lia.
  - rewrite lookup_app_l by (rewrite length_take, length_drop; lia).
    rewrite lookup_take_lt, lookup_drop by lia.
    rewrite Z.mod_small by lia. unfold row_at.
    replace (Z.to_nat s + Z.to_nat (i - 1))%nat with (Z.to_nat (s - 1 + i))
      by lia.
    destruct (lookup_lt_is_Some_2 (Field.Data (World.Field world))
                (Z.to_nat (s - 1 + i))) as [row ->]; [lia|done].
Qed.

End Partition.

(** ** One generation *)

(** The next state of a cell depends on its three rows and the width
    only. *)
Lemma next_state_ext r1 r2 x y1 y2 :
  wf_Region r1 → wf_Region r2 → Region.Width r1 = Region.Width r2 →
  0 <= x < Region.Width r1 →
  1 <= y1 <= Region.Height r1 → 1 <= y2 <= Region.Height r2 →
  (∀ j, -1 <= j <= 1 →
     index (Region.Field r1) (y1 + j) = index (Region.Field r2) (y2 + j)) →
  next_state r1 x y1 = next_state r2 x y2.
Proof.
  intros Hwf1 Hwf2 Hw Hx Hy1 Hy2 Hidx.
  destruct (nextCell_Some r1 Hwf1 x y1) as (c1 & Hc1 & Hn1); [done..|].
  destruct (nextCell_Some r2 Hwf2 x y2) as (c2 & Hc2 & Hn2); [lia|done|].
  unfold next_state. rewrite Hn1, Hn2. simpl.
  pose proof (Hidx 0) as H0. rewrite !Z.add_0_r in H0.
  unfold cell_at in Hc1, Hc2. rewrite H0 in Hc1 by lia.
  rewrite Hc1 in Hc2. injection Hc2 as ->.
  do 2 f_equal. unfold neighbour_count, alive_at. simpl.
  rewrite (Hidx (-1)), (Hidx 0), (Hidx 1) by lia.
  by rewrite Hw.
Qed.

Lemma mapM_total {A B} (f : A → option B) (g : A → B) (l : list A) :
  (∀ x, x ∈ l → f x = Some (g x)) → mapM f l = Some (g <$> l).
Proof.
  intros Hf. apply mapM_Some_2, Forall2_fmap_r, Forall_Forall2_diag.
  by apply Forall_forall.
Qed.

Lemma zip_with_ignore_r {A B C} (h : A → C) (l : list A) (k : list B) :
  length l = length k → zip_with (λ a _, h a) l k = h <$> l.
Proof.
  revert k. induction l as [|a l IH]; intros [|b k] Hlen; try done.
  simpl in *. f_equal. apply IH. lia.
Qed.

Lemma foldl_append {A} (acc : list A) (ls : list (list A)) :
  foldl (λ acc l, acc ++ l) acc ls = acc ++ concat ls.
Proof.
  revert acc. induction ls as [|l ls IH]; intros acc; simpl.
  - by rewrite app_nil_r.
  - by rewrite IH, (assoc_L (++)).
Qed.

Section Generation.

Variable world : World.t.
Variable workers : Z.
Hypothesis Hwf : wf_World world.
Hypothesis Hworkers : 1 <= workers < 2 ^ 62.

Lemma single_worker : 1 <= 1 < 2 ^ 62.
Proof. lia. Qed.

Lemma single_region_bounds :
  Region.Start (region_of world 1 0) = 0 ∧
  Region.Height (region_of world 1 0) = World.Height world ∧
  Region.Width (region_of world 1 0) = World.Width world.
Proof. unfold region_of, band_start, band_end. simpl. split_and!; [lia..|done]. Qed.

(** The rows of the next generation, computed on the whole grid. *)
Lemma next_band_shift w :
  0 <= w < workers →
  next_band (region_of world workers w)
  = (λ y, (λ x, next_state (region_of world 1 0) x y)
            <$> seqZ 0 (World.Width world))
      <$> seqZ (band_start (World.Height world) workers w + 1)
            (band_end (World.Height world) workers w
             - band_start (World.Height world) workers w).
Proof using Hwf Hworkers.
  intros Hw. pose proof (band_bounds world workers Hwf Hworkers w Hw) as Hb.
  pose proof (region_of_wf world workers Hwf Hworkers w Hw) as Hwfw.
  pose proof (region_of_wf world 1 Hwf single_worker 0 ltac:(lia)) as Hwf1.
  pose proof single_region_bounds as (Hs1 & Hh1 & Hw1).
  pose proof Hwf as (Hpos & Hh & _). unfold GoInt.small in *.
  unfold next_band.
  change (Region.Height (region_of world workers w))
    with (band_end (World.Height world) workers w
          - band_start (World.Height world) workers w).
  change (Region.Width (region_of world workers w)) with (World.Width world).
  rewrite <- fmap_add_seqZ, <- list_fmap_compose.
  apply list_fmap_ext. intros i y [-> Hy]%lookup_seqZ. simpl.
  apply list_fmap_ext. intros k x [-> Hx]%lookup_seqZ.
  apply next_state_ext; try done; try (simpl; lia).
  - rewrite Hh1. lia.
  - intros j Hj.
    rewrite (region_of_index world workers Hwf Hworkers) by (simpl; lia).
    rewrite (region_of_index world 1 Hwf single_worker) by (rewrite ?Hh1; lia).
    rewrite Hs1. simpl. do 2 f_equal. lia.
Qed.

Lemma concat_bands (F : Z → list Cell.t) (k : nat) :
  Z.of_nat k <= workers →
  concat ((λ w, F <$> seqZ (band_start (World.Height world) workers w + 1)
                        (band_end (World.Height world) workers w
                         - band_start (World.Height world) workers w))
            <$> seqZ 0 (Z.of_nat k))
  = F <$> seqZ 1 (if decide (k = O) then 0
                  else band_end (World.Height world) workers
                         (Z.of_nat k - 1)).
Proof using Hwf Hworkers.
  induction k as [|k IH]; intros Hk; [done|].
  rewrite seqZ_S, fmap_app, concat_app, IH by lia. simpl.
  rewrite app_nil_r, Z.add_0_l.
  pose proof (band_bounds world workers Hwf Hworkers (Z.of_nat k) ltac:(lia))
    as Hb.
  assert ((if decide (k = O) then 0
           else band_end (World.Height world) workers (Z.of_nat k - 1))
          = band_start (World.Height world) workers (Z.of_nat k)) as ->.
  { destruct (decide (k = O)) as [->|?]; [unfold band_start; lia|].
    rewrite band_end_next by lia. f_equal. lia. }
  rewrite <- fmap_app. f_equal.
  replace (Z.of_nat (S k) - 1) with (Z.of_nat k) by lia.
  remember (band_start (World.Height world) workers (Z.of_nat k)) as s.
  remember (band_end (World.Height world) workers (Z.of_nat k)) as e.
  replace (seqZ 1 e) with (seqZ 1 (s + (e - s))) by (f_equal; lia).
  rewrite (seqZ_app 1 s) by lia. do 2 f_equal. lia.
Qed.

Lemma regions_eq :
  Broker.regions world workers
  = Some (region_of world workers <$> seqZ 0 workers).
Proof using Hwf Hworkers.
  apply mapM_total. intros w [? ?]%elem_of_seqZ.
  apply World_region_eq; [done|done|lia].
Qed.

Lemma bands_concat :
  concat (next_band <$> (region_of world workers <$> seqZ 0 workers))
  = next_band (region_of world 1 0).
Proof using Hwf Hworkers.
  rewrite <- list_fmap_compose.
  rewrite (list_fmap_ext _
             (λ w, (λ y, (λ x, next_state (region_of world 1 0) x y)
                           <$> seqZ 0 (World.Width world))
                     <$> seqZ (band_start (World.Height world) workers w + 1)
                           (band_end (World.Height world) workers w
                            - band_start (World.Height world) workers w))).
  2:{ intros i w [-> ?]%lookup_seqZ. simpl. apply next_band_shift. lia. }
  replace (seqZ 0 workers) with (seqZ 0 (Z.of_nat (Z.to_nat workers)))
    by (f_equal; lia).
  rewrite concat_bands by lia.
  destruct (decide (Z.to_nat workers = O)) as [?|_]; [lia|].
  unfold next_band. pose proof single_region_bounds as (_ & -> & ->).
  do 2 f_equal. unfold band_end.
  destruct (decide _) as [_|?]; [done|lia].
Qed.

Lemma workers_update_eq :
  mapM Worker.Region_update (region_of world workers <$> seqZ 0 workers)
  = Some ((λ r, Region.setField r (next_band r))
            <$> (region_of world workers <$> seqZ 0 workers)).
Proof using Hwf Hworkers.
  apply mapM_total.
  intros r [w [-> [? ?]%elem_of_seqZ]]%list_elem_of_fmap.
  apply Region_update_eq, region_of_wf; (done || lia).
Qed.

Lemma World_update_eq (workerAddrs : list string) :
  Z.of_nat (length workerAddrs) = workers →
  Broker.World_update world workerAddrs
  = Some (World.setData world (next_band (region_of world 1 0))).
Proof using Hwf Hworkers.
  intros Hlen. unfold Broker.World_update. rewrite Hlen, regions_eq.
  rewrite bind_Some. do 2 f_equal.
  rewrite foldl_append. simpl.
  rewrite (Forall_zip_with_ext_l _ (λ r _, next_band r) _ _ workerAddrs).
  2:{ apply Forall_forall.
      intros r [w [-> [? ?]%elem_of_seqZ]]%list_elem_of_fmap a.
      unfold Broker.Region_update, Worker.WorkerService_Process.
      rewrite Region_update_eq by (apply region_of_wf; (done || lia)).
      done. }
  2:{ done. }
  rewrite zip_with_ignore_r by (rewrite length_fmap, length_seqZ; lia).
  apply bands_concat.
Qed.

End Generation.

(** The cells of the band a worker returns. *)
Lemma next_band_cell region r c :
  0 <= r < Region.Height region → 0 <= c < Region.Width region →
  cell_at (next_band region) r c = Some (next_state region c (1 + r)).
Proof.
  intros Hr Hc. unfold cell_at, next_band, index.
  destruct (decide (0 <= r)) as [_|?]; [|lia].
  rewrite list_lookup_fmap, lookup_seqZ_lt by lia. simpl.
  destruct (decide (0 <= c)) as [_|?]; [|lia].
  rewrite list_lookup_fmap, lookup_seqZ_lt by lia. simpl.
  do 2 f_equal; lia.
Qed.

Lemma next_band_length region :
  0 <= Region.Height region →
  Z.of_nat (length (next_band region)) = Region.Height region.
Proof. intros. unfold next_band. rewrite length_fmap, length_seqZ. lia. Qed.

Lemma next_band_width region :
  0 <= Region.Width region →
  rows_of_width (Region.Width region) (next_band region).
Proof.
  intros. unfold next_band. apply Forall_fmap, Forall_forall. intros y _.
  simpl. rewrite length_fmap, length_seqZ. lia.
Qed.

(** * The claims *)

(** C2.  For a well-formed region ([Height + 2] rows of [Width] cells) the
    worker's [region.update] returns a region of exactly [Height] rows,
    the halo rows dropped, and the alive state of the band cell at row
    [r], column [c] follows the rule over the eight neighbours of the
    input cell at row [r + 1], column [c] (the cell itself left out,
    columns wrapped modulo the width, rows taken from the array): dead for
    a count below 2 or above 3, alive for 3, unchanged for 2.  The width
    may even be zero. *)
Theorem worker_step_follows_rule (region : Region.t) :
  wf_Region region →
  ∃ out,
    Worker.Region_update region = Some out ∧
    Z.of_nat (length (Region.Field out)) = Region.Height region ∧
    ∀ r c,
      0 <= r < Region.Height region → 0 <= c < Region.Width region →
      ∃ cin cout,
        cell_at (Region.Field region) (r + 1) c = Some cin ∧
        cell_at (Region.Field out) r c = Some cout ∧
        let n :=
          neighbour_count (Region.Field region) (Region.Width region)
            (r + 1) c in
        (n < 2 ∨ n > 3 → Cell.Alive cout = false) ∧
        (n = 3 → Cell.Alive cout = true) ∧
        (n = 2 → Cell.Alive cout = Cell.Alive cin).
Proof.
  intros Hwf. exists (Region.setField region (next_band region)).
  pose proof Hwf as (Hh & Hw & _). unfold GoInt.small in *.
  split; [by apply Region_update_eq|].
  split; [apply next_band_length; lia|].
  intros r c Hr Hc. simpl.
  destruct (nextCell_Some region Hwf c (r + 1)) as (cin & Hcin & Hnext);
    [lia..|].
  exists cin, (next_state region c (1 + r)).
  split; [done|]. split; [by apply next_band_cell|].
  unfold next_state. rewrite (Z.add_comm 1 r), Hnext. simpl.
  unfold rule. split_and!; intros Hn.
  - rewrite bool_decide_eq_false_2 by lia.
    destruct Hn; [by rewrite bool_decide_eq_true_2 by lia|].
    by rewrite (bool_decide_eq_true_2 (_ > 3)), orb_true_r by lia.
  - by rewrite (bool_decide_eq_true_2 (_ = 3)) by lia.
  - by rewrite !bool_decide_eq_false_2 by lia.
Qed.

Lemma worker_step_follows_rule_witness :
  wf_Region one_row_region ∧
  ∃ out,
    Worker.Region_update one_row_region = Some out ∧
    Z.of_nat (length (Region.Field out)) = 1 ∧
    ∀ r c,
      0 <= r < 1 → 0 <= c < 3 →
      ∃ cin cout,
        cell_at (Region.Field one_row_region) (r + 1) c = Some cin ∧
        cell_at (Region.Field out) r c = Some cout ∧
        let n := neighbour_count (Region.Field one_row_region) 3 (r + 1) c in
        (n < 2 ∨ n > 3 → Cell.Alive cout = false) ∧
        (n = 3 → Cell.Alive cout = true) ∧
        (n = 2 → Cell.Alive cout = Cell.Alive cin).
Proof.
  split.
  - unfold wf_Region, GoInt.small, rows_of_width. simpl.
    split_and!; try lia. by repeat constructor.
  - apply (worker_step_follows_rule one_row_region).
    unfold wf_Region, GoInt.small, rows_of_width. simpl.
    split_and!; try lia. by repeat constructor.
Defined.

(** C10.  For a well-formed region the worker's [region.update] changes
    the [Alive] field only: the band cell at row [r], column [c] of the
    output carries the [X] and [Y] of the input cell at row [r + 1],
    column [c]. *)
Theorem worker_step_keeps_coordinates (region : Region.t) :
  wf_Region region →
  ∃ out,
    Worker.Region_update region = Some out ∧
    ∀ r c,
      0 <= r < Region.Height region → 0 <= c < Region.Width region →
      ∃ cin cout,
        cell_at (Region.Field region) (r + 1) c = Some cin ∧
        cell_at (Region.Field out) r c = Some cout ∧
        Cell.X cout = Cell.X cin ∧ Cell.Y cout = Cell.Y cin.
Proof.
  intros Hwf. exists (Region.setField region (next_band region)).
  split; [by apply Region_update_eq|].
  intros r c Hr Hc. simpl.
  destruct (nextCell_Some region Hwf c (r + 1)) as (cin & Hcin & Hnext);
    [lia..|].
  exists cin, (next_state region c (1 + r)).
  split; [done|]. split; [by apply next_band_cell|].
  unfold next_state. by rewrite (Z.add_comm 1 r), Hnext.
Qed.

Lemma worker_step_keeps_coordinates_witness :
  wf_Region one_row_region ∧
  ∃ out,
    Worker.Region_update one_row_region = Some out ∧
    ∀ r c,
      0 <= r < 1 → 0 <= c < 3 →
      ∃ cin cout,
        cell_at (Region.Field one_row_region) (r + 1) c = Some cin ∧
        cell_at (Region.Field out) r c = Some cout ∧
        Cell.X cout = Cell.X cin ∧ Cell.Y cout = Cell.Y cin.
Proof.
  split.
  - unfold wf_Region, GoInt.small, rows_of_width. simpl.
    split_and!; try lia. by repeat constructor.
  - apply (worker_step_keeps_coordinates one_row_region).
    unfold wf_Region, GoInt.small, rows_of_width. simpl.
    split_and!; try lia. by repeat constructor.
Defined.

Section Bands.

Variable world : World.t.
Variable workers : Z.
Hypothesis Hwf : wf_World world.
Hypothesis Hworkers : 1 <= workers <= World.Height world.

Lemma workers_small : 1 <= workers < 2 ^ 62.
Proof using Hwf Hworkers.
  destruct Hwf as (_ & Hh & _). unfold GoInt.small in Hh. lia.
Qed.

Lemma band_height_pos : 1 <= World.Height world `div` workers.
Proof using Hworkers. apply Z.div_le_lower_bound; lia. Qed.

Lemma regions_lookup (w : nat) r :
  (region_of world workers <$> seqZ 0 workers) !! w = Some r →
  r = region_of world workers (Z.of_nat w) ∧ 0 <= Z.of_nat w < workers.
Proof.
  rewrite list_lookup_fmap.
  destruct (seqZ 0 workers !! w) as [k|] eqn:Hk; [|done].
  apply lookup_seqZ in Hk as [-> ?]. simpl. intros [= <-].
  split; [f_equal|]; lia.
Qed.

Lemma band_end_le_start w1 w2 :
  0 <= w1 < w2 → w2 < workers →
  band_end (World.Height world) workers w1
  <= band_start (World.Height world) workers w2.
Proof using Hworkers.
  intros H1 H2. pose proof band_height_pos.
  unfold band_start, band_end.
  destruct (decide (w1 = workers - 1)); [lia|nia].
Qed.

Lemma band_of_row y :
  0 <= y < World.Height world →
  ∃ w, 0 <= w < workers ∧
    band_start (World.Height world) workers w <= y
    < band_end (World.Height world) workers w.
Proof using Hworkers.
  intros Hy. pose proof band_height_pos as Hpos.
  set (h := World.Height world `div` workers) in *.
  pose proof (Z.mul_div_le y h ltac:(lia)).
  pose proof (Z.mul_succ_div_gt y h ltac:(lia)).
  pose proof (Z.div_pos y h ltac:(lia) ltac:(lia)).
  unfold band_start, band_end. fold h.
  destruct (decide (y `div` h < workers - 1)) as [Hlt|Hge].
  - exists (y `div` h). split; [lia|].
    destruct (decide (_ = workers - 1)); [lia|nia].
  - exists (workers - 1). split; [lia|].
    destruct (decide (_ = workers - 1)); [nia|lia].
Qed.

Lemma total_height_prefix (k : nat) :
  Z.of_nat k <= workers →
  total_height (region_of world workers <$> seqZ 0 (Z.of_nat k))
  = if decide (k = O) then 0
    else band_end (World.Height world) workers (Z.of_nat k - 1).
Proof using Hwf Hworkers.
  unfold total_height.
  induction k as [|k IH]; intros Hk; [done|].
  rewrite seqZ_S, !fmap_app, foldr_app. simpl.
  replace (Z.of_nat (S k) - 1) with (Z.of_nat k) by lia.
  rewrite Z.add_0_l, Z.add_0_r.
  assert (∀ a l, foldr Z.add a l = a + foldr Z.add 0 l) as Hshift.
  { intros a l. induction l as [|z l IHl]; simpl; lia. }
  rewrite Hshift, IH by lia.
  destruct (decide (k = O)) as [->|?].
  - unfold band_start. change (Z.of_nat 0) with 0. simpl. lia.
  - rewrite (band_end_next world workers (Z.of_nat k - 1)) by lia.
    replace (Z.of_nat k - 1 + 1) with (Z.of_nat k) by lia. simpl. lia.
Qed.

End Bands.

(** C3.  For a well-formed world and [1 <= workers <= height],
    [World.region] applied to the worker indices [0 .. workers - 1] gives
    bands [start, end) that begin at row 0, end at row [height], follow
    one another without gap ([end] of one is [start] of the next), do not
    overlap, contain every row of [0, height) exactly once, and whose
    heights [end - start] add up to [height]; [start] and [end] are those
    of the specification, the last worker taking the remainder. *)
Theorem partition_covers_height (world : World.t) (workers : Z) :
  wf_World world → 1 <= workers <= World.Height world →
  ∃ regions,
    Broker.regions world workers = Some regions ∧
    Z.of_nat (length regions) = workers ∧
    (∀ (w : nat) r, regions !! w = Some r →
       Region.Start r = Z.of_nat w * (World.Height world `div` workers) ∧
       Region.End r
       = (if decide (Z.of_nat w = workers - 1) then World.Height world
          else (Z.of_nat w + 1) * (World.Height world `div` workers)) ∧
       Region.Height r = Region.End r - Region.Start r ∧
       0 <= Region.Start r < Region.End r ∧
       Region.End r <= World.Height world) ∧
    (∀ r, regions !! O = Some r → Region.Start r = 0) ∧
    (∀ r, last regions = Some r → Region.End r = World.Height world) ∧
    (∀ (w : nat) r r', regions !! w = Some r → regions !! S w = Some r' →
       Region.End r = Region.Start r') ∧
    (∀ (w w' : nat) r r', regions !! w = Some r → regions !! w' = Some r' →
       (w < w')%nat → Region.End r <= Region.Start r') ∧
    (∀ y, 0 <= y < World.Height world →
       ∃ (w : nat) r,
         regions !! w = Some r ∧ Region.Start r <= y < Region.End r ∧
         ∀ (w' : nat) r', regions !! w' = Some r' →
           Region.Start r' <= y < Region.End r' → w' = w) ∧
    total_height regions = World.Height world.
Proof.
  intros Hwf Hworkers.
  pose proof (workers_small world workers Hwf Hworkers) as Hsmall.
  exists (region_of world workers <$> seqZ 0 workers).
  split; [by apply regions_eq|].
  split; [rewrite length_fmap, length_seqZ; lia|].
  assert (∀ (w : nat) r,
            (region_of world workers <$> seqZ 0 workers) !! w = Some r →
            0 <= Z.of_nat w < workers ∧
            Region.Start r
            = band_start (World.Height world) workers (Z.of_nat w) ∧
            Region.End r
            = band_end (World.Height world) workers (Z.of_nat w)) as Hreg.
  { intros w r [-> ?]%regions_lookup. done. }
  split_and!.
  - intros w r Hr. pose proof Hr as [-> Hw]%regions_lookup.
    pose proof (band_bounds world workers Hwf Hsmall _ Hw).
    pose proof (band_nonempty world workers Hwf Hsmall _ Hw ltac:(lia)).
    simpl. split_and!; try done; lia.
  - intros r (_ & -> & _)%Hreg. unfold band_start. simpl. lia.
  - intros r Hr. rewrite last_lookup, length_fmap, length_seqZ in Hr.
    apply Hreg in Hr as (_ & _ & ->). unfold band_end.
    destruct (decide _) as [_|?]; [done|lia].
  - intros w r r' (? & _ & ->)%Hreg (? & -> & _)%Hreg.
    rewrite band_end_next by lia. f_equal. lia.
  - intros w w' r r' (? & _ & ->)%Hreg (? & -> & _)%Hreg Hlt.
    apply band_end_le_start; [done|lia|lia].
  - intros y Hy.
    destruct (band_of_row world workers Hworkers y Hy) as (w & Hw & Hin).
    exists (Z.to_nat w), (region_of world workers w).
    split.
    { rewrite list_lookup_fmap, lookup_seqZ_lt by lia. simpl.
      do 2 f_equal. lia. }
    split; [done|].
    intros w' r' (Hw' & Hs & He)%Hreg Hin'. rewrite Hs, He in Hin'.
    destruct (Z.lt_trichotomy (Z.of_nat w') w) as [Hlt|[Heq|Hgt]]; [|lia|].
    + pose proof (band_end_le_start world workers Hworkers (Z.of_nat w') w).
      lia.
    + pose proof (band_end_le_start world workers Hworkers w (Z.of_nat w')).
      lia.
  - replace (seqZ 0 workers) with (seqZ 0 (Z.of_nat (Z.to_nat workers)))
      by (f_equal; lia).
    rewrite (total_height_prefix world workers Hwf Hworkers) by lia.
    destruct (decide (Z.to_nat workers = O)) as [?|_]; [lia|].
    unfold band_end. destruct (decide _) as [_|?]; [done|lia].
Qed.

Lemma partition_covers_height_witness :
  wf_World glider ∧ 1 <= 3 <= World.Height glider ∧
  ∃ regions,
    Broker.regions glider 3 = Some regions ∧
    Z.of_nat (length regions) = 3 ∧
    total_height regions = World.Height glider.
Proof.
  assert (wf_World glider) as Hwf.
  { unfold wf_World, GoInt.small, rows_of_width. simpl.
    split_and!; try lia. by repeat constructor. }
  assert (1 <= 3 <= World.Height glider) as Hn by (simpl; lia).
  split; [exact Hwf|]. split; [exact Hn|].
  destruct (partition_covers_height glider 3 Hwf Hn)
    as (regions & Hregions & Hlen & _ & _ & _ & _ & _ & _ & Hsum).
  exists regions. split; [exact Hregions|]. split; [exact Hlen|exact Hsum].
Defined.

(** C4.  For a well-formed world, [1 <= workers <= height] and a worker
    index [w], the region built by [World.region] is the one of worker
    [w]: [start = w * (height / workers)], [end = (w + 1) * (height /
    workers)] or [height] for the last worker, a band that is not empty;
    its row array is [haloAbove, band rows start .. end - 1, haloBelow] of
    length [bandHeight + 2], where [haloAbove] is grid row
    [(start - 1 + height) mod height] and [haloBelow] is grid row
    [end mod height]; and the halo-below row index of worker [w] is the
    first band row index of worker [(w + 1) mod workers]. *)
Theorem region_layout (world : World.t) (workers w : Z) :
  wf_World world → 1 <= workers <= World.Height world → 0 <= w < workers →
  let height := World.Height world in
  let rows := Field.Data (World.Field world) in
  ∃ r haloAbove haloBelow next,
    Broker.World_region world w workers = Some r ∧
    Region.Start r = w * (height `div` workers) ∧
    Region.End r
    = (if decide (w = workers - 1) then height
       else (w + 1) * (height `div` workers)) ∧
    Region.Start r < Region.End r ∧
    Region.Height r = Region.End r - Region.Start r ∧
    Region.Width r = World.Width world ∧
    index rows ((Region.Start r - 1 + height) `mod` height) = Some haloAbove ∧
    index rows (Region.End r `mod` height) = Some haloBelow ∧
    Region.Field r
    = [haloAbove] ++ band_rows rows (Region.Start r) (Region.End r)
      ++ [haloBelow] ∧
    (∀ i, 0 <= i < Region.Height r →
       is_Some (index rows (Region.Start r + i)) ∧
       index (Region.Field r) (1 + i) = index rows (Region.Start r + i)) ∧
    Z.of_nat (length (Region.Field r)) = Region.Height r + 2 ∧
    Broker.World_region world ((w + 1) `mod` workers) workers = Some next ∧
    Region.Start next = ((w + 1) `mod` workers) * (height `div` workers) ∧
    Region.End r `mod` height = Region.Start next.
Proof.
  intros Hwf Hworkers Hw. cbv zeta.
  pose proof (workers_small world workers Hwf Hworkers) as Hsmall.
  pose proof (band_bounds world workers Hwf Hsmall w Hw) as Hb.
  pose proof (band_nonempty world workers Hwf Hsmall w Hw ltac:(lia)) as Hne.
  pose proof (region_of_wf world workers Hwf Hsmall w Hw)
    as (_ & _ & Hlen & _).
  pose proof Hwf as (Hpos & Hh & _ & Hrows & _). unfold GoInt.small in Hh.
  assert (0 <= (w + 1) `mod` workers < workers) as Hnext
    by (apply Z.mod_pos_bound; lia).
  exists (region_of world workers w).
  exists (row_at (Field.Data (World.Field world))
            ((band_start (World.Height world) workers w - 1
              + World.Height world) `mod` World.Height world)).
  exists (row_at (Field.Data (World.Field world))
            (band_end (World.Height world) workers w
               `mod` World.Height world)).
  exists (region_of world workers ((w + 1) `mod` workers)).
  split; [by apply World_region_eq|].
  split; [reflexivity|]. split; [reflexivity|]. split; [exact Hne|].
  split; [done|]. split; [done|].
  split; [apply index_row_at; rewrite Hrows; apply Z.mod_pos_bound; lia|].
  split; [apply index_row_at; rewrite Hrows; apply Z.mod_pos_bound; lia|].
  split; [done|]. split.
  { intros i Hi. simpl in Hi. split.
    - apply index_is_Some. simpl. lia.
    - rewrite (region_of_index world workers Hwf Hsmall)
        by (simpl; lia).
      simpl. f_equal.
      replace (band_start (World.Height world) workers w - 1 + (1 + i))
        with (band_start (World.Height world) workers w + i) by lia.
      apply Z.mod_small. lia. }
  split; [done|]. split; [by apply World_region_eq|].
  split; [reflexivity|].
  simpl. destruct (decide (w = workers - 1)) as [->|Hne'].
  - replace (workers - 1 + 1) with workers by lia.
    rewrite Z.mod_same by lia.
    unfold band_start, band_end.
    destruct (decide _) as [_|?]; [|lia].
    rewrite Z.mod_same by lia. lia.
  - rewrite (Z.mod_small (w + 1)) by lia.
    rewrite (band_end_next world workers w) by lia.
    apply Z.mod_small.
    pose proof (band_end_below world workers Hwf Hsmall w ltac:(lia)
                  ltac:(lia)) as Hlt.
    rewrite (band_end_next world workers w) in Hlt by lia.
    pose proof (band_bounds world workers Hwf Hsmall (w + 1) ltac:(lia)).
    lia.
Qed.

Lemma region_layout_witness :
  wf_World glider ∧ 1 <= 3 <= World.Height glider ∧ 0 <= 2 < 3 ∧
  ∃ r next,
    Broker.World_region glider 2 3 = Some r ∧
    Region.Start r = 2 * (World.Height glider `div` 3) ∧
    Region.End r = World.Height glider ∧
    Region.Start r < Region.End r ∧
    Z.of_nat (length (Region.Field r)) = Region.Height r + 2 ∧
    Broker.World_region glider ((2 + 1) `mod` 3) 3 = Some next ∧
    Region.Start next = ((2 + 1) `mod` 3) * (World.Height glider `div` 3) ∧
    Region.End r `mod` World.Height glider = Region.Start next.
Proof.
  assert (wf_World glider) as Hwf.
  { unfold wf_World, GoInt.small, rows_of_width. simpl.
    split_and!; try lia. by repeat constructor. }
  assert (1 <= 3 <= World.Height glider) as Hn by (simpl; lia).
  assert (0 <= 2 < 3) as Hw by lia.
  split; [exact Hwf|]. split; [exact Hn|]. split; [exact Hw|].
  destruct (region_layout glider 3 2 Hwf Hn Hw)
    as (r & _ & _ & next & Hr & Hs & He & Hne & _ & _ & _ & _ & _ & _ & Hlen
        & Hnext & Hsn & Hhalo).
  exists r, next.
  split; [exact Hr|]. split; [exact Hs|]. split; [exact He|].
  split; [exact Hne|]. split; [exact Hlen|]. split; [exact Hnext|].
  split; [exact Hsn|exact Hhalo].
Defined.

(** C1.  For a well-formed world and [1 <= workers <= height]:
    partitioning the world into [workers] regions, running the worker's
    [region.update] on each, and concatenating the returned bands in
    worker-index order gives the grid that [region.update] returns on the
    whole grid taken as the single region of [workers = 1]; so
    [World.update] with a pool of [workers] addresses and with a pool of
    one address return the same world. *)
Theorem partition_round_trip (world : World.t) (workers : Z) :
  wf_World world → 1 <= workers <= World.Height world →
  ∃ regions bands whole band,
    Broker.regions world workers = Some regions ∧
    mapM Worker.Region_update regions = Some bands ∧
    Broker.World_region world 0 1 = Some whole ∧
    Worker.Region_update whole = Some band ∧
    concat (Region.Field <$> bands) = Region.Field band ∧
    ∀ (workerAddrs : list string) (single : string),
      Z.of_nat (length workerAddrs) = workers →
      Broker.World_update world workerAddrs
      = Some (World.setData world (Region.Field band)) ∧
      Broker.World_update world [single]
      = Some (World.setData world (Region.Field band)).
Proof.
  intros Hwf Hworkers.
  pose proof (workers_small world workers Hwf Hworkers) as Hsmall.
  exists (region_of world workers <$> seqZ 0 workers).
  exists ((λ r, Region.setField r (next_band r))
            <$> (region_of world workers <$> seqZ 0 workers)).
  exists (region_of world 1 0).
  exists (Region.setField (region_of world 1 0)
            (next_band (region_of world 1 0))).
  split; [by apply regions_eq|].
  split; [by apply workers_update_eq|].
  split; [apply World_region_eq; (done || lia)|].
  split; [apply Region_update_eq, region_of_wf; (done || lia)|].
  split.
  { rewrite <- list_fmap_compose. simpl.
    by rewrite <- (bands_concat world workers Hwf Hsmall). }
  intros workerAddrs single Hlen. simpl. split.
  - by apply (World_update_eq world workers).
  - by apply (World_update_eq world 1).
Qed.

Lemma partition_round_trip_witness :
  wf_World glider ∧ 1 <= 2 <= World.Height glider ∧
  ∃ band,
    Broker.World_update glider ["w0"; "w1"]%string
    = Some (World.setData glider band) ∧
    Broker.World_update glider ["w0"]%string
    = Some (World.setData glider band).
Proof.
  assert (wf_World glider) as Hwf.
  { unfold wf_World, GoInt.small, rows_of_width. simpl.
    split_and!; try lia. by repeat constructor. }
  assert (1 <= 2 <= World.Height glider) as Hn by (simpl; lia).
  split; [exact Hwf|]. split; [exact Hn|].
  destruct (partition_round_trip glider 2 Hwf Hn)
    as (_ & _ & _ & band & _ & _ & _ & _ & _ & Hupd).
  exists (Region.Field band).
  exact (Hupd ["w0"; "w1"]%string "w0"%string eq_refl).
Defined.

(** ** The control plane *)

(** C5.  A run of two turns on the glider that is quit after its first
    generation: the loop has reached the first generation and one turn,
    and [Process] returns at once, but with the response it was given, the
    zero value (an empty world and no turn), not with what was reached:
    [return nil] leaves the function before [res.World] and [res.Turns]
    are assigned. *)
Theorem quit_returns_zero_response :
  let start :=
    Process.enter (BrokerProcessRequest.mk 2 glider)
      (BrokerService.init pool3) in
  ∃ b b',
    Process.run [([], Process.PauseReady)] start
    = Some (Process.Running
              (Process.mkFrame 2 (generation glider) 1
                 BrokerProcessResponse.zero Process.AtLoop) b) ∧
    BrokerService.Turns b = 1 ∧
    BrokerService.World b = generation glider ∧
    generation glider ≠ World.zero ∧
    Process.run quit_after_one start
    = Some (Process.Returned BrokerProcessResponse.zero b') ∧
    BrokerProcessResponse.World BrokerProcessResponse.zero = World.zero ∧
    BrokerProcessResponse.Turns BrokerProcessResponse.zero = 0.
Proof.
  cbv zeta. eexists _, _.
  split; [vm_compute; reflexivity|].
  split; [vm_compute; reflexivity|].
  split; [vm_compute; reflexivity|].
  split; [vm_compute; discriminate|].
  split; [vm_compute; reflexivity|].
  split; reflexivity.
Qed.

(** A statement of a thread, on a broker where no thread is a run loop
    and no call of [Quit] has returned, leaves it so: only the run loop
    receives. *)
Lemma step_waits_for_run pick tid sys sys' :
  Forall waits_for_run (Threads.threads sys) →
  Threads.step pick tid sys = Some sys' →
  Forall waits_for_run (Threads.threads sys').
Proof.
  intros Hinv Hstep. unfold Threads.step in Hstep.
  destruct (Threads.threads sys !! tid) as [[p fr]|] eqn:Ht; [|done].
  pose proof (Forall_lookup_1 _ _ _ _ Hinv Ht) as Hw.
  unfold waits_for_run in Hw. simpl in Hw, Hstep.
  destruct fr; [done|..]; destruct p; simpl in Hstep; simplify_eq;
    simpl; by apply Forall_insert.
Qed.

Lemma run_waits_for_run schedule sys sys' :
  no_run schedule →
  Forall waits_for_run (Threads.threads sys) →
  Threads.run schedule sys = Some sys' →
  Forall waits_for_run (Threads.threads sys').
Proof.
  unfold no_run. revert sys.
  induction schedule as [|a schedule IH]; intros sys Hno Hinv Hrun.
  - simpl in Hrun. by simplify_eq.
  - apply Forall_cons in Hno as [Ha Hno]. simpl in Hrun.
    destruct (Threads.act a sys) as [sys1|] eqn:Hact; [|done].
    simpl in Hrun. apply (IH sys1 Hno); [|done].
    destruct a as [call|tid pick]; simpl in Hact.
    + simplify_eq. unfold Threads.arrive. simpl.
      apply Forall_app. split; [done|].
      apply Forall_singleton.
      destruct call as [req| | | |]; try done.
      by destruct (Ha req).
    + by eapply step_waits_for_run.
Qed.

(** C6.  [Quit] answers the turn count of the moment, but the session is
    not left empty.  In [quit_during_generation] the call of [Quit] comes
    while the second generation of a run is in flight: it answers 1, the
    turn count of that moment, and resets the three fields before its send
    on [quit]; the run loop then publishes the generation over the reset,
    and only then receives the signal.  All three calls have returned, and
    the session holds turn count 1, 5 alive cells and the glider's second
    generation; the [Report] that follows answers turns 1 and 5 alive
    cells.  And where no run of [Process] is ever asked for, nothing
    receives the signal: no call of [Quit] returns. *)
Theorem Quit_reset_is_overwritten :
  (∃ sys,
     Threads.run quit_during_generation (Threads.start pool3) = Some sys ∧
     Threads.threads sys
     = [Threads.mkThread Threads.Returned
          (Threads.InProcess 3 (generation (generation glider)) 2
             BrokerProcessResponse.zero);
        Threads.mkThread Threads.Returned
          (Threads.InQuit (BrokerQuitResponse.mk 1));
        Threads.mkThread Threads.Returned
          (Threads.InReport (BrokerReportResponse.mk 1 5))] ∧
     Threads.Turns (Threads.shared sys) = 1 ∧
     Threads.CellsCount (Threads.shared sys) = 5 ∧
     Threads.World (Threads.shared sys) = generation (generation glider) ∧
     alive_count (generation (generation glider)) = 5 ∧
     ¬ session_empty (Threads.shared sys)) ∧
  (∃ sys,
     Threads.run quit_without_run (Threads.start pool3) = Some sys ∧
     Threads.threads sys
     = [Threads.mkThread (Threads.Sending Threads.Returned)
          (Threads.InQuit (BrokerQuitResponse.mk 0))] ∧
     session_empty (Threads.shared sys) ∧
     ∀ pick, Threads.step pick 0 sys = None) ∧
  (∀ addresses schedule sys t,
     no_run schedule →
     Threads.run schedule (Threads.start addresses) = Some sys →
     t ∈ Threads.threads sys → ¬ Quit_returned t).
Proof.
  split; [|split].
  - eexists. split; [vm_compute; reflexivity|].
    split; [vm_compute; reflexivity|].
    split; [reflexivity|]. split; [reflexivity|].
    split; [vm_compute; reflexivity|].
    split; [vm_compute; reflexivity|].
    intros (Hturns & _). vm_compute in Hturns. discriminate.
  - eexists. split; [vm_compute; reflexivity|].
    split; [reflexivity|]. split; [by split_and!|].
    by intros [].
  - intros addresses schedule sys t Hno Hrun Ht (Hret & res & Hfr).
    assert (Forall waits_for_run (Threads.threads sys)) as Hinv.
    { eapply run_waits_for_run; [exact Hno| |exact Hrun].
      simpl. constructor. }
    pose proof (proj1 (Forall_forall _ _) Hinv t Ht) as Hw.
    unfold waits_for_run in Hw. rewrite Hfr in Hw. done.
Qed.

Lemma Quit_reset_is_overwritten_witness :
  no_run quit_without_run ∧
  ∃ sys,
    Threads.run quit_without_run (Threads.start pool3) = Some sys ∧
    Threads.threads sys
    = [Threads.mkThread (Threads.Sending Threads.Returned)
         (Threads.InQuit (BrokerQuitResponse.mk 0))] ∧
    ∀ t, t ∈ Threads.threads sys → ¬ Quit_returned t.
Proof.
  assert (no_run quit_without_run) as Hno
    by (repeat constructor; intros req; discriminate).
  split; [exact Hno|].
  eexists. split; [reflexivity|]. split; [reflexivity|].
  intros t.
  exact (proj2 (proj2 Quit_reset_is_overwritten) pool3 quit_without_run _ t
           Hno eq_refl).
Defined.

(** C7, as stated, fails: after a call of [Pause] and a call of [Quit]
    both signals wait, and [select] may take the quit, so the order pause,
    quit, compute is not kept. *)
Lemma select_keeps_no_pause_priority :
  ¬ (∀ f b, reachable (Some f, b) → at_iteration f →
       quit_never_skipped f b ∧ priority_order f b).
Proof.
  intros Hclaim.
  destruct (Hclaim frame0 both_waiting) as [_ Horder].
  { change both_waiting
      with (Process.serve Process.CallQuit
              (Process.serve Process.CallPause (BrokerService.init pool3))).
    do 2 apply reach_call.
    apply (reach_enter (BrokerService.init pool3)
             (BrokerProcessRequest.mk 2 glider)); [apply reach_init|done]. }
  { split; [reflexivity|simpl; lia]. }
  specialize (Horder Process.DidQuit _
                (Process.steps_to_pick frame0 both_waiting Process.QuitReady
                   _ _ eq_refl)).
  simpl in Horder. discriminate.
Qed.

(** C7, amended.  At the start of an iteration with a quit waiting, the
    step of the run loop is never a generation: it receives the quit, or
    it receives a pause that waits as well; a generation is computed only
    when neither a pause nor a quit waits and the loop is not paused.
    Between a waiting pause and a waiting quit, [select] keeps no order. *)
Theorem pending_quit_excludes_compute f b a c :
  at_iteration f → Process.steps_to f b a c →
  (BrokerService.quit b ≠ [] →
     a ≠ Process.DidCompute ∧
     (a = Process.DidQuit ∨
      a = Process.DidPause ∧ BrokerService.pause b ≠ [])) ∧
  (a = Process.DidCompute →
     BrokerService.quit b = [] ∧ BrokerService.pause b = [] ∧
     BrokerService.isPaused b = false).
Proof.
  intros [Hpoint Hturn] [pick a' c' Hstep].
  unfold Process.step in Hstep. rewrite Hpoint in Hstep.
  destruct (decide _) as [_|?]; [|lia].
  unfold Process.select in Hstep.
  destruct (BrokerService.pause b) as [|v ps],
    (BrokerService.quit b) as [|q qs]; simpl in Hstep.
  - split; [done|]. intros ->.
    destruct (BrokerService.isPaused b); [by simplify_eq|done].
  - simplify_eq. split; [|done]. intros _. split; [done|by left].
  - simplify_eq. split; done.
  - destruct pick; simplify_eq; (split; [|done]); intros _;
      (split; [done|]); [by right|by left].
Qed.

Lemma pending_quit_excludes_compute_witness :
  at_iteration frame0 ∧
  Process.steps_to frame0 quit_waiting Process.DidQuit
    (Process.Returned BrokerProcessResponse.zero
       (Process.setQuit quit_waiting [])) ∧
  (BrokerService.quit quit_waiting ≠ [] →
     Process.DidQuit ≠ Process.DidCompute ∧
     (Process.DidQuit = Process.DidQuit ∨
      Process.DidQuit = Process.DidPause ∧
      BrokerService.pause quit_waiting ≠ [])) ∧
  (Process.DidQuit = Process.DidCompute →
     BrokerService.quit quit_waiting = [] ∧
     BrokerService.pause quit_waiting = [] ∧
     BrokerService.isPaused quit_waiting = false).
Proof.
  assert (at_iteration frame0) as Hit by (split; [reflexivity|simpl; lia]).
  assert (Process.steps_to frame0 quit_waiting Process.DidQuit
            (Process.Returned BrokerProcessResponse.zero
               (Process.setQuit quit_waiting []))) as Hstep
    by (apply (Process.steps_to_pick _ _ Process.PauseReady); reflexivity).
  split; [exact Hit|]. split; [exact Hstep|].
  exact (pending_quit_excludes_compute _ _ _ _ Hit Hstep).
Defined.

(** The next generation of a well-formed world is well-formed. *)
Lemma generation_wf world : wf_World world → wf_World (generation world).
Proof.
  intros Hwf. pose proof Hwf as (Hpos & Hh & Hw & Hlen & Hrows).
  pose proof (single_region_bounds world) as (_ & Hh1 & Hw1).
  unfold wf_World, generation. simpl. unfold GoInt.small in *.
  split_and!; try lia.
  - rewrite next_band_length; lia.
  - rewrite <- Hw1. apply next_band_width. lia.
Qed.

Lemma generation_update world (workerAddrs : list string) :
  wf_World world → 1 <= Z.of_nat (length workerAddrs) < 2 ^ 62 →
  Broker.World_update world workerAddrs = Some (generation world).
Proof. intros Hwf Hn. by eapply World_update_eq. Qed.

(** A run that no call disturbs computes the turns that are left. *)
Lemma run_quiet (k : nat) f b :
  Process.point f = Process.AtLoop → wf_World (Process.world f) →
  quiet_session b →
  1 <= Z.of_nat (length (BrokerService.addresses b)) < 2 ^ 62 →
  Process.turn f + Z.of_nat k = Process.turns f →
  0 <= Process.turn f → Process.turns f < 2 ^ 63 →
  0 <= BrokerService.Turns b → BrokerService.Turns b + Z.of_nat k < 2 ^ 63 →
  ∃ b',
    Process.run (Process.quiet (S k)) (Process.Running f b)
    = Some (Process.Returned
              (BrokerProcessResponse.mk
                 (Nat.iter k generation (Process.world f))
                 (BrokerService.Turns b + Z.of_nat k))
              b') ∧
    BrokerService.Turns b' = BrokerService.Turns b + Z.of_nat k.
Proof.
  revert f b. induction k as [|k IH];
    intros f b Hpoint Hwf (Hq & Hp & Hpaused) Haddr Hturn H0 Hmax Hb0 Hbmax.
  - exists b. simpl. unfold Process.step. rewrite Hpoint.
    destruct (decide _) as [?|_]; [lia|]. simpl.
    by rewrite Z.add_0_r.
  - change (Process.quiet (S (S k)))
      with (([] : list Process.Call, Process.PauseReady)
              :: Process.quiet (S k)).
    cbn [Process.run foldl]. unfold Process.step. rewrite Hpoint.
    destruct (decide _) as [_|?]; [|lia].
    unfold Process.select. rewrite Hq, Hp, Hpaused. cbn [negb].
    rewrite generation_update by done. rewrite !bind_Some. cbn [snd].
    rewrite add_id by lia.
    destruct (IH (Process.mkFrame (Process.turns f)
                    (generation (Process.world f)) (Process.turn f + 1)
                    (Process.res f) Process.AtLoop)
                (Process.publish b (generation (Process.world f))))
      as (b' & Hrun & Hturns); simpl; try done; try lia.
    + by apply generation_wf.
    + rewrite add_id by lia. lia.
    + rewrite add_id by lia. lia.
    + exists b'. simpl in Hrun, Hturns. rewrite add_id in Hrun, Hturns by lia.
      rewrite Hrun, Hturns. split; [|lia].
      rewrite Nat.iter_swap. do 3 f_equal. lia.
Qed.

(** C8, as stated, fails: a pool of three workers for a grid of two rows
    neither divides the height nor fits it, and the run starts with a
    generation all the same. *)
Lemma uneven_pool_is_run :
  ¬ (∀ req b, uneven_pool req b → rejected_before_run req b).
Proof.
  intros Hclaim.
  assert (uneven_pool (BrokerProcessRequest.mk 1 two_rows)
            (BrokerService.init pool3)) as Hbad.
  { left. vm_compute. discriminate. }
  eapply (Hclaim _ _ Hbad _ _ Process.PauseReady Process.DidCompute).
  - reflexivity.
  - vm_compute. reflexivity.
  - reflexivity.
Qed.

(** The bands of any pool of at least one worker. *)
Lemma bands_of_any_pool world workers :
  wf_World world → 1 <= workers < 2 ^ 62 →
  remainder_to_last world workers.
Proof.
  intros Hwf Hn. exists (region_of world workers <$> seqZ 0 workers).
  split; [by apply regions_eq|].
  split; [rewrite length_fmap, length_seqZ; lia|].
  intros w r [-> Hw]%regions_lookup. simpl.
  unfold band_start, band_end.
  split; [done|]. split.
  - destruct (decide _) as [->|?]; [done|]. lia.
  - intros Hlt Hlast. destruct (decide _) as [?|_]; [done|].
    rewrite Z.div_small by (destruct Hwf; lia). lia.
Qed.

(** A grid without rows makes the first worker's region panic at
    [end % world.Height]. *)
Lemma World_update_zero_rows world (workerAddrs : list string) :
  World.Height world = 0 → workerAddrs ≠ [] →
  Broker.World_update world workerAddrs = None.
Proof.
  intros Hzero Hpool. unfold Broker.World_update, Broker.regions.
  assert (1 <= Z.of_nat (length workerAddrs)) as Hn
    by (destruct workerAddrs; [done|simpl; lia]).
  remember (Z.of_nat (length workerAddrs)) as n eqn:En.
  rewrite seqZ_cons by lia. cbn [mapM].
  assert (Broker.World_region world 0 n = None) as ->; [|done].
  unfold Broker.World_region. rewrite Hzero. unfold GoInt.quot.
  destruct (decide (n = 0)) as [?|_]; [lia|]. cbn [mbind option_bind].
  unfold GoInt.rem. by destruct (decide (0 = 0)).
Qed.

(** C8, amended.  The broker checks no configuration: for every pool of
    at least one worker, whether or not it divides the height of the grid
    or exceeds it, a run is entered.  On a well-formed world, which has
    at least one row, every worker but the last gets [height / workers]
    rows (none when the pool exceeds the height), the last worker gets
    the rows that are left, and a run that no call disturbs returns after
    all the turns asked for, with the world of that many generations.  On
    a grid without rows a run of at least one turn is entered as well and
    panics in its first generation. *)
Theorem Process_runs_any_pool (world : World.t) (turns : nat)
  (b : BrokerService.t) :
  quiet_session b →
  1 <= Z.of_nat (length (BrokerService.addresses b)) < 2 ^ 62 →
  0 <= BrokerService.Turns b →
  BrokerService.Turns b + Z.of_nat turns < 2 ^ 63 →
  (wf_World world → 1 <= World.Height world →
   remainder_to_last world (Z.of_nat (length (BrokerService.addresses b))) ∧
   completes world turns b) ∧
  (World.Height world = 0 → (1 <= turns)%nat → panics_mid_run world turns b).
Proof.
  intros Hquiet Haddr Hb0 Hbmax. split.
  - intros Hwf _. split; [by apply bands_of_any_pool|].
    apply (run_quiet turns
             (Process.mkFrame (Z.of_nat turns) world 0
                BrokerProcessResponse.zero Process.AtLoop) b);
      simpl; try done; lia.
  - intros Hzero Hturns. destruct Hquiet as (Hq & Hp & Hpaused).
    assert (Broker.World_update world (BrokerService.addresses b) = None)
      as Hpanic.
    { apply World_update_zero_rows; [done|].
      intros Hnil. rewrite Hnil in Haddr. simpl in Haddr. lia. }
    split; [|split; [exact Hpanic|]].
    + eexists. split; [reflexivity|]. split; simpl; [done|lia].
    + change (Process.quiet (S turns))
        with (([] : list Process.Call, Process.PauseReady)
                :: Process.quiet turns).
      unfold Process.enter. cbn [Process.run foldl]. unfold Process.step.
      simpl. destruct (decide _) as [_|?]; [|lia].
      unfold Process.select. rewrite Hq, Hp, Hpaused. simpl.
      by rewrite Hpanic.
Qed.

Lemma Process_runs_any_pool_witness :
  (quiet_session (BrokerService.init pool3) ∧
   1 <= Z.of_nat (length (BrokerService.addresses (BrokerService.init pool3)))
     < 2 ^ 62 ∧
   0 <= BrokerService.Turns (BrokerService.init pool3) ∧
   BrokerService.Turns (BrokerService.init pool3) + Z.of_nat 2 < 2 ^ 63) ∧
  (wf_World two_rows ∧ 1 <= World.Height two_rows ∧
   World.Height two_rows `mod` 3 ≠ 0 ∧ World.Height two_rows < 3 ∧
   remainder_to_last two_rows 3 ∧
   completes two_rows 2 (BrokerService.init pool3)) ∧
  (World.Height World.zero = 0 ∧ (1 <= 2)%nat ∧
   panics_mid_run World.zero 2 (BrokerService.init pool3)).
Proof.
  assert (wf_World two_rows) as Hwf.
  { unfold wf_World, GoInt.small, rows_of_width. simpl.
    split_and!; try lia. by repeat constructor. }
  assert (quiet_session (BrokerService.init pool3)) as Hq
    by (split_and!; reflexivity).
  assert (1 <= Z.of_nat
                 (length (BrokerService.addresses (BrokerService.init pool3)))
          < 2 ^ 62) as Hn by (simpl; lia).
  assert (0 <= BrokerService.Turns (BrokerService.init pool3)) as H0
    by (simpl; lia).
  assert (BrokerService.Turns (BrokerService.init pool3) + Z.of_nat 2
          < 2 ^ 63) as Hmax by (simpl; lia).
  assert (1 <= World.Height two_rows) as Hrows by (simpl; lia).
  assert (World.Height two_rows `mod` 3 ≠ 0) as Hdiv
    by (vm_compute; discriminate).
  assert (World.Height two_rows < 3) as Hmore by (simpl; lia).
  assert (World.Height World.zero = 0) as Hzero by reflexivity.
  assert (1 <= 2)%nat as Hturns by lia.
  pose proof (proj1 (Process_runs_any_pool two_rows 2
                       (BrokerService.init pool3) Hq Hn H0 Hmax) Hwf Hrows)
    as [Hbands Hrun].
  pose proof (proj2 (Process_runs_any_pool World.zero 2
                       (BrokerService.init pool3) Hq Hn H0 Hmax)
                Hzero Hturns) as Hpanic.
  exact (conj (conj Hq (conj Hn (conj H0 Hmax)))
           (conj (conj Hwf (conj Hrows (conj Hdiv (conj Hmore
                    (conj Hbands Hrun)))))
              (conj Hzero (conj Hturns Hpanic)))).
Defined.

(** ** The session snapshot *)

Lemma aliveCellsInRow_from_length x row y alive :
  length (Broker.aliveCellsInRow_from x row y alive)
  = (length alive
     + length (filter (λ cell, Cell.Alive cell = true) row))%nat.
Proof.
  revert x alive. induction row as [|cell row IH]; intros x alive; simpl.
  - lia.
  - rewrite IH, filter_cons.
    destruct (Cell.Alive cell); destruct (decide _) as [?|?]; try done;
      rewrite ?length_app; simpl; lia.
Qed.

Lemma World_alive_from_length y rows alive :
  length (Broker.World_alive_from y rows alive)
  = (length alive
     + length (filter (λ cell, Cell.Alive cell = true) (concat rows)))%nat.
Proof.
  revert y alive. induction rows as [|row rows IH]; intros y alive; simpl.
  - lia.
  - rewrite IH, filter_app, !length_app. unfold Broker.aliveCellsInRow.
    rewrite aliveCellsInRow_from_length. simpl. lia.
Qed.

(** [len(world.alive())] is the number of alive cells of the world. *)
Lemma World_alive_count world :
  Z.of_nat (length (Broker.World_alive world)) = alive_count world.
Proof.
  unfold Broker.World_alive, alive_count.
  by rewrite World_alive_from_length.
Qed.

(** C9.  A completed turn does recompute the count for the world it
    stores: lines 245 and 246, when no other call writes between them,
    leave [CellsCount] the number of alive cells of the stored world.
    But the invariant is not kept.  Between the two assignments the
    session holds the count of the new world, 8, beside the old world: a
    [Report] and a [Save] of that moment answer 8 alive cells and the
    empty world.  And when the resets of [Quit] fall between the two
    assignments, the loop stores the new world over the reset one: after
    [Process] and [Quit] have both returned the session holds
    [CellsCount] 0 and a world of 8 alive cells. *)
Theorem Quit_splits_count_from_world :
  (∀ sys tid turns world turn res,
     Threads.threads sys !! tid
     = Some (Threads.mkThread Threads.Process245
               (Threads.InProcess turns world turn res)) →
     ∃ sys',
       Threads.run (Threads.steps 2 tid) sys = Some sys' ∧
       Threads.CellsCount (Threads.shared sys') = alive_count world ∧
       Threads.World (Threads.shared sys') = world ∧
       snapshot_consistent (Threads.shared sys')) ∧
  (∃ sys,
     Threads.run report_and_save_between (Threads.start pool3) = Some sys ∧
     Threads.threads sys
     = [Threads.mkThread Threads.Process246
          (Threads.InProcess 2 (generation glider) 0
             BrokerProcessResponse.zero);
        Threads.mkThread Threads.Returned
          (Threads.InReport (BrokerReportResponse.mk 1 8));
        Threads.mkThread Threads.Returned
          (Threads.InSave (BrokerSaveResponse.mk 1 World.zero))] ∧
     Threads.CellsCount (Threads.shared sys) = 8 ∧
     Threads.World (Threads.shared sys) = World.zero ∧
     alive_count World.zero = 0 ∧
     ¬ snapshot_consistent (Threads.shared sys)) ∧
  (∃ sys,
     Threads.run quit_between_count_and_world (Threads.start pool3)
     = Some sys ∧
     Threads.threads sys
     = [Threads.mkThread Threads.Returned
          (Threads.InProcess 2 (generation glider) 1
             BrokerProcessResponse.zero);
        Threads.mkThread Threads.Returned
          (Threads.InQuit (BrokerQuitResponse.mk 1))] ∧
     Threads.CellsCount (Threads.shared sys) = 0 ∧
     Threads.World (Threads.shared sys) = generation glider ∧
     alive_count (generation glider) = 8 ∧
     ¬ snapshot_consistent (Threads.shared sys)).
Proof.
  split; [|split].
  - intros sys tid turns world turn res Ht.
    pose proof (lookup_lt_Some _ _ _ Ht) as Hlt.
    set (b1 := Threads.setCellsCount (Threads.shared sys)
                 (Z.of_nat (length (Broker.World_alive world)))).
    set (ts1 := <[tid := Threads.mkThread Threads.Process246
                           (Threads.InProcess turns world turn res)]>
                  (Threads.threads sys)).
    assert (Threads.step Process.PauseReady tid sys
            = Some (Threads.mkSystem b1 ts1)) as Hcount
      by (unfold Threads.step; rewrite Ht; reflexivity).
    assert (Threads.step Process.PauseReady tid (Threads.mkSystem b1 ts1)
            = Some (Threads.mkSystem (Threads.setWorld b1 world)
                      (<[tid := Threads.mkThread Threads.Process248
                                  (Threads.InProcess turns world turn res)]>
                         ts1))) as Hworld.
    { unfold Threads.step. simpl. unfold ts1.
      by rewrite list_lookup_insert_eq. }
    eexists. simpl. rewrite Hcount. simpl. rewrite Hworld. simpl.
    split; [reflexivity|]. unfold snapshot_consistent. simpl.
    by rewrite World_alive_count.
  - eexists. split; [vm_compute; reflexivity|].
    split; [vm_compute; reflexivity|].
    split; [reflexivity|]. split; [reflexivity|].
    split; [reflexivity|].
    intros Hc. vm_compute in Hc. discriminate.
  - eexists. split; [vm_compute; reflexivity|].
    split; [vm_compute; reflexivity|].
    split; [reflexivity|]. split; [vm_compute; reflexivity|].
    split; [vm_compute; reflexivity|].
    intros Hc. vm_compute in Hc. discriminate.
Qed.

Lemma Quit_splits_count_from_world_witness :
  ∃ sys,
    Threads.run
      ([Threads.Arrive
          (Threads.CallProcess (BrokerProcessRequest.mk 2 glider))]
       ++ Threads.steps 5 0)
      (Threads.start pool3)
    = Some sys ∧
    Threads.threads sys !! 0%nat
    = Some (Threads.mkThread Threads.Process245
              (Threads.InProcess 2 (generation glider) 0
                 BrokerProcessResponse.zero)) ∧
    ∃ sys',
      Threads.run (Threads.steps 2 0) sys = Some sys' ∧
      Threads.CellsCount (Threads.shared sys')
      = alive_count (generation glider) ∧
      Threads.World (Threads.shared sys') = generation glider ∧
      snapshot_consistent (Threads.shared sys').
Proof.
  eexists. split; [vm_compute; reflexivity|].
  assert (∀ sys : Threads.System,
            Threads.threads sys !! 0%nat
            = Some (Threads.mkThread Threads.Process245
                      (Threads.InProcess 2 (generation glider) 0
                         BrokerProcessResponse.zero)) →
            Threads.threads sys !! 0%nat
            = Some (Threads.mkThread Threads.Process245
                      (Threads.InProcess 2 (generation glider) 0
                         BrokerProcessResponse.zero)) ∧
            ∃ sys',
              Threads.run (Threads.steps 2 0) sys = Some sys' ∧
              Threads.CellsCount (Threads.shared sys')
              = alive_count (generation glider) ∧
              Threads.World (Threads.shared sys') = generation glider ∧
              snapshot_consistent (Threads.shared sys')) as Huse.
  { intros sys Ht. split; [exact Ht|].
    exact (proj1 Quit_splits_count_from_world sys 0%nat 2
             (generation glider) 0 BrokerProcessResponse.zero Ht). }
  apply Huse. vm_compute. reflexivity.
Defined.
